(** * ai-codereviewer: the diff-to-comment pipeline of [src/main.ts]

    A shallow embedding of [main.ts] and of the ECMAScript built-ins it
    calls ([String.prototype.trim], [String.prototype.match] with the
    pattern of line 150, [JSON.parse], [Number], property access, truthiness),
    followed by the properties of the pipeline.

    JavaScript strings are sequences of UTF-16 code units; numbers are IEEE
    binary64 values ([spec_float] with precision 53 and maximal exponent
    1024); exceptions are explicit completions; [console] output, calls of
    the model and calls of the review API are recorded in a world that is
    threaded through the asynchronous functions. *)

From Stdlib Require Import ZArith NArith List Bool String Ascii Lia SpecFloat
  DecimalString.
Import ListNotations.

Set Implicit Arguments.
Set Warnings "-register-all".

(** ** Strings *)

Definition code_unit := N.
Definition jsstring := list code_unit.

Local Open Scope N_scope.

(** An ASCII literal, as code units. *)
Definition lit (s : string) : jsstring :=
  map N_of_ascii (list_ascii_of_string s).

(** The same, where an apostrophe in the literal stands for the double
    quote U+0022 (none of the texts of [main.ts] contains an apostrophe). *)
Definition qlit (s : string) : jsstring :=
  map (fun c => if c =? 39 then 34 else c) (lit s).

Fixpoint jsstring_eqb (a b : jsstring) : bool :=
  match a, b with
  | [], [] => true
  | x :: a', y :: b' => (x =? y) && jsstring_eqb a' b'
  | _, _ => false
  end.

(** WhiteSpace and LineTerminator code points (ECMA-262, 12.2 and 12.3):
    the characters removed by [trim] and skipped by [Number] on strings. *)
Definition is_js_whitespace (c : code_unit) : bool :=
  (c =? 9) || (c =? 10) || (c =? 11) || (c =? 12) || (c =? 13) || (c =? 32)
  || (c =? 160) || (c =? 5760) || ((8192 <=? c) && (c <=? 8202))
  || (c =? 8232) || (c =? 8233) || (c =? 8239) || (c =? 8287)
  || (c =? 12288) || (c =? 65279).

Fixpoint trimStart (s : jsstring) : jsstring :=
  match s with
  | [] => []
  | c :: r => if is_js_whitespace c then trimStart r else s
  end.

Definition trimEnd (s : jsstring) : jsstring := rev (trimStart (rev s)).

(** [String.prototype.trim]. *)
Definition trim (s : jsstring) : jsstring := trimEnd (trimStart s).

(** [s.split(",")] for a one-character separator: the pieces between the
    separators, at least one piece. *)
Fixpoint split_on (sep : code_unit) (s : jsstring) : list jsstring :=
  match s with
  | [] => [[]]
  | c :: r =>
      if c =? sep then [] :: split_on sep r
      else match split_on sep r with
           | p :: ps => (c :: p) :: ps
           | [] => [[c]]
           end
  end.

(** ** Numbers *)

Definition number := spec_float.

Definition prec : Z := 53.
Definition emax : Z := 1024.

Definition NaN : number := S754_nan.

(** The binary64 value nearest to [(-1)^neg * m * 10^e], ties to even:
    the rounding of the mathematical value of a decimal literal. *)
Definition round_decimal (neg : bool) (m : N) (e : Z) : number :=
  match m with
  | N0 => S754_zero neg
  | Npos p =>
      match e with
      | Z0 => binary_round prec emax neg p 0
      | Zpos k => binary_round prec emax neg (p * Pos.pow 10 k) 0
      | Zneg k =>
          SFdiv prec emax (S754_finite neg p 0)
            (S754_finite false (Pos.pow 10 k) 0)
      end
  end.

(** The number whose value is the integer [z]. *)
Definition number_of_Z (z : Z) : number :=
  round_decimal (z <? 0)%Z (Z.abs_N z) 0.

(** The integer a number denotes, when it is finite and integral. *)
Definition number_to_Z (x : number) : option Z :=
  match x with
  | S754_zero _ => Some 0%Z
  | S754_finite s m e =>
      let v := match e with
               | Z0 => Some (Zpos m)
               | Zpos k => Some (Z.shiftl (Zpos m) (Zpos k))
               | Zneg k =>
                   if (Z.land (Zpos m) (Z.ones (Zpos k)) =? 0)%Z
                   then Some (Z.shiftr (Zpos m) (Zpos k)) else None
               end in
      option_map (fun z => if s then Z.opp z else z) v
  | _ => None
  end.

(** A finite positive integer: what a [ReviewComment.line] is meant to be. *)
Definition finite_positive_integer (x : number) : Prop :=
  exists z, number_to_Z x = Some z /\ (0 < z)%Z.

(** *** [StringToNumber] (ECMA-262, 7.1.4.1) *)

Definition is_digit (c : code_unit) : bool := (48 <=? c) && (c <=? 57).

Definition digit_value (base : N) (c : code_unit) : option N :=
  let v := if (48 <=? c) && (c <=? 57) then Some (c - 48)
           else if (97 <=? c) && (c <=? 102) then Some (c - 87)
           else if (65 <=? c) && (c <=? 70) then Some (c - 55)
           else None in
  match v with
  | Some d => if d <? base then Some d else None
  | None => None
  end.

(** The value of a non-empty digit sequence in the given base. *)
Fixpoint digits_value (base : N) (acc : N) (ds : jsstring) : option N :=
  match ds with
  | [] => Some acc
  | c :: r =>
      match digit_value base c with
      | Some d => digits_value base (base * acc + d) r
      | None => None
      end
  end.

Definition all_digits (base : N) (ds : jsstring) : option N :=
  match ds with
  | [] => None
  | _ => digits_value base 0 ds
  end.

(** The longest prefix of decimal digits, and what follows it. *)
Fixpoint span_digits (s : jsstring) : jsstring * jsstring :=
  match s with
  | c :: r =>
      if is_digit c then let (d, t) := span_digits r in (c :: d, t)
      else ([], s)
  | [] => ([], [])
  end.

Definition decimal_digits (ds : jsstring) : N :=
  match digits_value 10 0 ds with Some n => n | None => 0 end.

(** ExponentPart_opt at the end of a literal: the exponent it denotes. *)
Definition exponent_part (s : jsstring) : option Z :=
  match s with
  | [] => Some 0%Z
  | c :: r =>
      if (c =? 101) || (c =? 69) then
        let (neg, r') :=
          match r with
          | 43 :: t => (false, t)
          | 45 :: t => (true, t)
          | _ => (false, r)
          end in
        match all_digits 10 r' with
        | Some n => Some (if neg then Z.opp (Z.of_N n) else Z.of_N n)
        | None => None
        end
      else None
  end.

(** StrUnsignedDecimalLiteral. *)
Definition StrUnsignedDecimalLiteral (neg : bool) (s : jsstring)
  : option number :=
  if jsstring_eqb s (lit "Infinity") then Some (S754_infinity neg)
  else
    let (int, r1) := span_digits s in
    let '(frac, r2, ok) :=
      match r1 with
      | 46 :: t =>
          let (f, r2) := span_digits t in
          (f, r2, negb (match int, f with [], [] => true | _, _ => false end))
      | _ => ([], r1, negb (match int with [] => true | _ => false end))
      end in
    if ok then
      match exponent_part r2 with
      | Some e =>
          Some (round_decimal neg (decimal_digits (int ++ frac))
                  (e - Z.of_nat (List.length frac)))
      | None => None
      end
    else None.

(** StrNumericLiteral: a signed decimal literal, or an unsigned binary,
    octal or hexadecimal integer literal. *)
Definition StrNumericLiteral (s : jsstring) : option number :=
  match s with
  | 48 :: x :: r =>
      let base := if (x =? 120) || (x =? 88) then Some 16
                  else if (x =? 111) || (x =? 79) then Some 8
                  else if (x =? 98) || (x =? 66) then Some 2
                  else None in
      match base with
      | Some b =>
          match all_digits b r with
          | Some n => Some (round_decimal false n 0)
          | None => None
          end
      | None => StrUnsignedDecimalLiteral false s
      end
  | 43 :: r => StrUnsignedDecimalLiteral false r
  | 45 :: r => StrUnsignedDecimalLiteral true r
  | _ => StrUnsignedDecimalLiteral false s
  end.

(** [StringToNumber]: white space around the literal is ignored, the empty
    string is [+0], and a string that is not a StringNumericLiteral is NaN. *)
Definition StringToNumber (s : jsstring) : number :=
  match trim s with
  | [] => S754_zero false
  | t => match StrNumericLiteral t with
         | Some x => x
         | None => NaN
         end
  end.

(** ** Values, exceptions *)

(** The values [JSON.parse] produces.  [undefined] is not one of them: a
    value that may be [undefined] is an [option JSValue], [None] being
    [undefined].  An object is the list of its own properties in creation
    order, with distinct keys. *)
Inductive JSValue :=
| JNull
| JBool (b : bool)
| JNum (x : number)
| JStr (s : jsstring)
| JArr (elements : list JSValue)
| JObj (properties : list (jsstring * JSValue)).

Inductive Error :=
| TypeError
| SyntaxError
| ExternalError.

(** How an evaluation ends: with a value, or with a thrown exception. *)
Inductive Completion (A : Type) :=
| Normal (a : A)
| Throw (e : Error).

Arguments Normal {A} a.
Arguments Throw {A} e.

(** [ToBoolean]. *)
Definition ToBoolean (v : option JSValue) : bool :=
  match v with
  | None => false
  | Some JNull => false
  | Some (JBool b) => b
  | Some (JNum (S754_zero _)) => false
  | Some (JNum S754_nan) => false
  | Some (JNum _) => true
  | Some (JStr []) => false
  | Some (JStr _) => true
  | Some (JArr _) => true
  | Some (JObj _) => true
  end.

Fixpoint obj_get (ps : list (jsstring * JSValue)) (key : jsstring)
  : option JSValue :=
  match ps with
  | [] => None
  | (k, v) :: r => if jsstring_eqb k key then Some v else obj_get r key
  end.

(** [CreateDataProperty]: an existing key keeps its place and takes the new
    value, a new key goes last. *)
Fixpoint obj_set (ps : list (jsstring * JSValue)) (key : jsstring)
  (v : JSValue) : list (jsstring * JSValue) :=
  match ps with
  | [] => [(key, v)]
  | (k, w) :: r =>
      if jsstring_eqb k key then (k, v) :: r else (k, w) :: obj_set r key v
  end.

(** The property access [v.key], for a key that no built-in prototype
    defines and that is neither an index nor [length] (as [reviews],
    [lineNumber] and [reviewComment] are): the own property of an object,
    [undefined] on any other value, and a TypeError on [null] and
    [undefined]. *)
Definition GetV (v : option JSValue) (key : jsstring)
  : Completion (option JSValue) :=
  match v with
  | None => Throw TypeError
  | Some JNull => Throw TypeError
  | Some (JObj ps) => Normal (obj_get ps key)
  | Some _ => Normal None
  end.

(** [Number(v)].  A string goes through [StringToNumber].  An array goes
    through its [toString], the elements joined by commas with [null]
    printed as the empty string: two elements or more give a text with a
    comma, which is no numeric literal; one element gives the text of that
    element, and the text of a number reads back as that number ([-0] is
    printed [0]).  An object is printed [[object Object]]. *)
Fixpoint ToNumber_value (v : JSValue) : number :=
  match v with
  | JNull => S754_zero false
  | JBool true => number_of_Z 1
  | JBool false => S754_zero false
  | JNum x => x
  | JStr s => StringToNumber s
  | JArr [] => S754_zero false
  | JArr [x] =>
      match x with
      | JNull => S754_zero false
      | JBool _ => NaN
      | JNum (S754_zero _) => S754_zero false
      | JNum y => y
      | JStr s => StringToNumber s
      | JArr _ => ToNumber_value x
      | JObj _ => NaN
      end
  | JArr _ => NaN
  | JObj _ => NaN
  end.

Definition ToNumber (v : option JSValue) : number :=
  match v with
  | None => NaN
  | Some x => ToNumber_value x
  end.

(** ** [JSON.parse] (ECMA-262, 25.5.1; ECMA-404) *)

Module JSON.

Inductive token :=
| TLBrace | TRBrace | TLBracket | TRBracket | TComma | TColon
| TString (s : jsstring)
| TNumber (x : number)
| TTrue | TFalse | TNull.

(** Where the scanner stands inside a number: an optional minus; then a
    single zero, or a non-zero digit and any digits; then optionally a dot
    and one digit or more; then optionally [e] or [E], an optional sign and
    one digit or more. *)
Inductive num_phase :=
| NMinus | NZero | NInt | NDot | NFrac | NExp | NExpSign | NExpDigits.

Record num_acc := {
  n_neg : bool;      (* a leading minus was read *)
  n_mant : N;        (* the integer and fraction digits read, as one integer *)
  n_frac : Z;        (* how many of them are fraction digits *)
  n_eneg : bool;     (* the exponent has a minus *)
  n_exp : N          (* the exponent digits read *)
}.

Inductive lex_state :=
| LStart
| LString (acc : jsstring)
| LEscape (acc : jsstring)
| LUnicode (acc : jsstring) (v : N) (remaining : nat)
| LKeyword (rest : jsstring) (t : token)
| LNumber (ph : num_phase) (a : num_acc).

Definition num_accepting (ph : num_phase) : bool :=
  match ph with
  | NZero | NInt | NFrac | NExpDigits => true
  | _ => false
  end.

Definition num_value (a : num_acc) : number :=
  round_decimal (n_neg a) (n_mant a)
    ((if n_eneg a then Z.opp (Z.of_N (n_exp a)) else Z.of_N (n_exp a))
     - n_frac a).

Definition push_mant (a : num_acc) (d : N) (frac : bool) : num_acc :=
  {| n_neg := n_neg a; n_mant := 10 * n_mant a + d;
     n_frac := if frac then (n_frac a + 1)%Z else n_frac a;
     n_eneg := n_eneg a; n_exp := n_exp a |}.

Definition push_exp (a : num_acc) (d : N) : num_acc :=
  {| n_neg := n_neg a; n_mant := n_mant a; n_frac := n_frac a;
     n_eneg := n_eneg a; n_exp := 10 * n_exp a + d |}.

Definition set_eneg (a : num_acc) : num_acc :=
  {| n_neg := n_neg a; n_mant := n_mant a; n_frac := n_frac a;
     n_eneg := true; n_exp := n_exp a |}.

Definition num_start (neg : bool) (d : N) : num_acc :=
  {| n_neg := neg; n_mant := d; n_frac := 0; n_eneg := false; n_exp := 0 |}.

(** One more character of a number: the next phase, or [None] when the
    character does not continue the number. *)
Definition num_step (ph : num_phase) (a : num_acc) (c : code_unit)
  : option (num_phase * num_acc) :=
  let digit := is_digit c in
  let d := c - 48 in
  let is_e := (c =? 101) || (c =? 69) in
  match ph with
  | NMinus =>
      if c =? 48 then Some (NZero, a)
      else if digit then Some (NInt, push_mant a d false) else None
  | NZero =>
      if c =? 46 then Some (NDot, a)
      else if is_e then Some (NExp, a) else None
  | NInt =>
      if digit then Some (NInt, push_mant a d false)
      else if c =? 46 then Some (NDot, a)
      else if is_e then Some (NExp, a) else None
  | NDot => if digit then Some (NFrac, push_mant a d true) else None
  | NFrac =>
      if digit then Some (NFrac, push_mant a d true)
      else if is_e then Some (NExp, a) else None
  | NExp =>
      if c =? 43 then Some (NExpSign, a)
      else if c =? 45 then Some (NExpSign, set_eneg a)
      else if digit then Some (NExpDigits, push_exp a d) else None
  | NExpSign => if digit then Some (NExpDigits, push_exp a d) else None
  | NExpDigits => if digit then Some (NExpDigits, push_exp a d) else None
  end.

(** A character between tokens: JSON white space, a structural character,
    or the first character of a string, a number or a literal name. *)
Definition lex_start (c : code_unit) : option (list token * lex_state) :=
  if (c =? 9) || (c =? 10) || (c =? 13) || (c =? 32) then Some ([], LStart)
  else if c =? 123 then Some ([TLBrace], LStart)
  else if c =? 125 then Some ([TRBrace], LStart)
  else if c =? 91 then Some ([TLBracket], LStart)
  else if c =? 93 then Some ([TRBracket], LStart)
  else if c =? 44 then Some ([TComma], LStart)
  else if c =? 58 then Some ([TColon], LStart)
  else if c =? 34 then Some ([], LString [])
  else if c =? 45 then Some ([], LNumber NMinus (num_start true 0))
  else if c =? 48 then Some ([], LNumber NZero (num_start false 0))
  else if is_digit c then Some ([], LNumber NInt (num_start false (c - 48)))
  else if c =? 116 then Some ([], LKeyword (lit "rue") TTrue)
  else if c =? 102 then Some ([], LKeyword (lit "alse") TFalse)
  else if c =? 110 then Some ([], LKeyword (lit "ull") TNull)
  else None.

(** The character after a backslash in a string. *)
Definition escape_char (c : code_unit) : option code_unit :=
  if c =? 34 then Some 34
  else if c =? 92 then Some 92
  else if c =? 47 then Some 47
  else if c =? 98 then Some 8
  else if c =? 102 then Some 12
  else if c =? 110 then Some 10
  else if c =? 114 then Some 13
  else if c =? 116 then Some 9
  else None.

(** The scanner reads one character: the tokens completed by it and the
    next state, or [None] for a character the grammar does not allow. *)
Definition lex_step (st : lex_state) (c : code_unit)
  : option (list token * lex_state) :=
  match st with
  | LStart => lex_start c
  | LString acc =>
      if c =? 34 then Some ([TString acc], LStart)
      else if c =? 92 then Some ([], LEscape acc)
      else if c <? 32 then None
      else Some ([], LString (acc ++ [c]))
  | LEscape acc =>
      if c =? 117 then Some ([], LUnicode acc 0 4)
      else match escape_char c with
           | Some x => Some ([], LString (acc ++ [x]))
           | None => None
           end
  | LUnicode acc v remaining =>
      match digit_value 16 c with
      | Some d =>
          match remaining with
          | 0%nat => None
          | 1%nat => Some ([], LString (acc ++ [16 * v + d]))
          | S k => Some ([], LUnicode acc (16 * v + d) k)
          end
      | None => None
      end
  | LKeyword rest t =>
      match rest with
      | [] => None
      | x :: r =>
          if c =? x then
            match r with
            | [] => Some ([t], LStart)
            | _ => Some ([], LKeyword r t)
            end
          else None
      end
  | LNumber ph a =>
      match num_step ph a c with
      | Some (ph', a') => Some ([], LNumber ph' a')
      | None =>
          if num_accepting ph then
            match lex_start c with
            | Some (ts, st') => Some (TNumber (num_value a) :: ts, st')
            | None => None
            end
          else None
      end
  end.

(** The end of the text. *)
Definition lex_end (st : lex_state) : option (list token) :=
  match st with
  | LStart => Some []
  | LNumber ph a => if num_accepting ph then Some [TNumber (num_value a)] else None
  | _ => None
  end.

Fixpoint lex_from (st : lex_state) (s : jsstring) : option (list token) :=
  match s with
  | [] => lex_end st
  | c :: r =>
      match lex_step st c with
      | Some (ts, st') =>
          match lex_from st' r with
          | Some more => Some (ts ++ more)
          | None => None
          end
      | None => None
      end
  end.

Definition lex (s : jsstring) : option (list token) := lex_from LStart s.

(** An array or object under construction, waiting for its next member. *)
Inductive frame :=
| FArray (done : list JSValue)
| FObject (done : list (jsstring * JSValue)) (key : jsstring).

Inductive parse_state :=
| PValue (stack : list frame)       (* a value starts here *)
| PFirstElement (stack : list frame)  (* after an opening bracket *)
| PFirstKey (stack : list frame)    (* after an opening brace *)
| PKey (done : list (jsstring * JSValue)) (stack : list frame)
                                    (* after a comma in an object: a key *)
| PColon (done : list (jsstring * JSValue)) (key : jsstring)
    (stack : list frame)            (* after a key: the colon *)
| PAfter (v : JSValue) (stack : list frame).
                                    (* a value is complete *)

Definition value_start (t : token) (stack : list frame) : option parse_state :=
  match t with
  | TString s => Some (PAfter (JStr s) stack)
  | TNumber x => Some (PAfter (JNum x) stack)
  | TTrue => Some (PAfter (JBool true) stack)
  | TFalse => Some (PAfter (JBool false) stack)
  | TNull => Some (PAfter JNull stack)
  | TLBracket => Some (PFirstElement stack)
  | TLBrace => Some (PFirstKey stack)
  | _ => None
  end.

Definition parse_step (st : parse_state) (t : token) : option parse_state :=
  match st with
  | PValue stack => value_start t stack
  | PFirstElement stack =>
      match t with
      | TRBracket => Some (PAfter (JArr []) stack)
      | _ => value_start t (FArray [] :: stack)
      end
  | PFirstKey stack =>
      match t with
      | TRBrace => Some (PAfter (JObj []) stack)
      | TString k => Some (PColon [] k stack)
      | _ => None
      end
  | PKey done stack =>
      match t with
      | TString k => Some (PColon done k stack)
      | _ => None
      end
  | PColon done k stack =>
      match t with
      | TColon => Some (PValue (FObject done k :: stack))
      | _ => None
      end
  | PAfter v [] => None
  | PAfter v (FArray done :: stack) =>
      match t with
      | TComma => Some (PValue (FArray (done ++ [v]) :: stack))
      | TRBracket => Some (PAfter (JArr (done ++ [v])) stack)
      | _ => None
      end
  | PAfter v (FObject done k :: stack) =>
      match t with
      | TComma => Some (PKey (obj_set done k v) stack)
      | TRBrace => Some (PAfter (JObj (obj_set done k v)) stack)
      | _ => None
      end
  end.

Fixpoint parse_from (st : parse_state) (ts : list token) : option JSValue :=
  match ts with
  | [] => match st with
          | PAfter v [] => Some v
          | _ => None
          end
  | t :: r =>
      match parse_step st t with
      | Some st' => parse_from st' r
      | None => None
      end
  end.

(** [JSON.parse(text)]: the value of a text that is one JSON value with
    optional white space around it, and a SyntaxError for any other text. *)
Definition parse (text : jsstring) : Completion JSValue :=
  match lex text with
  | Some ts =>
      match parse_from (PValue []) ts with
      | Some v => Normal v
      | None => Throw SyntaxError
      end
  | None => Throw SyntaxError
  end.

End JSON.

(** ** The data of [main.ts] *)

(** A change of a hunk, as [parse-diff] types it: an added or deleted line
    carries [ln], a context line carries [ln1] and [ln2].  Line numbers are
    non-negative integers, printed in decimal. *)
Inductive Change :=
| AddChange (ln : N) (content : jsstring)
| DeleteChange (ln : N) (content : jsstring)
| NormalChange (ln1 ln2 : N) (content : jsstring).

Record Chunk := {
  chunk_content : jsstring;
  chunk_changes : list Change
}.

(** [File] of [parse-diff]: [to] is optional. *)
Record File := {
  file_to : option jsstring;
  file_chunks : list Chunk
}.

Record PRDetails := {
  owner : jsstring;
  repo : jsstring;
  pull_number : N;
  title : jsstring;
  description : jsstring
}.

(** The elements of the array [createComment] returns.  [body] is whatever
    [aiResponse.reviewComment] evaluates to. *)
Record ReviewComment := {
  body : option JSValue;
  path : jsstring;
  line : number
}.

(** ** [createPrompt] (lines 92-122) *)

Definition NumberToString (n : N) : jsstring :=
  lit (NilZero.string_of_uint (N.to_uint n)).

(** A template substitution of a value that may be [undefined]. *)
Definition template_string (s : option jsstring) : jsstring :=
  match s with
  | Some x => x
  | None => lit "undefined"
  end.

Fixpoint join (sep : jsstring) (l : list jsstring) : jsstring :=
  match l with
  | [] => []
  | [x] => x
  | x :: r => x ++ sep ++ join sep r
  end.

(** [`${c.ln ? c.ln : c.ln2} ${c.content}`] *)
Definition render_change (c : Change) : jsstring :=
  match c with
  | AddChange ln content | DeleteChange ln content =>
      (if ln =? 0 then lit "undefined" else NumberToString ln)
      ++ lit " " ++ content
  | NormalChange _ ln2 content => NumberToString ln2 ++ lit " " ++ content
  end.

Definition prompt_rules : jsstring := qlit
"You are a code reviewer. Review the following code changes and provide feedback.

IMPORTANT: You must respond with ONLY a valid JSON object in this exact format:
{'reviews': [{'lineNumber': <line_number>, 'reviewComment': '<review comment>'}]}

Rules:
- If there are issues to address, include them in the 'reviews' array
- If the code looks good, return: {'reviews': []}
- Do not give positive comments or compliments
- Do not suggest adding comments to the code
- Write review comments in GitHub Markdown format
- Each review must have a 'lineNumber' (number) and 'reviewComment' (string)

Pull Request Context:
Title: ".

Definition createPrompt (file : File) (chunk : Chunk) (prDetails : PRDetails)
  : jsstring :=
  prompt_rules ++ title prDetails ++ lit "
Description: "
  ++ (match description prDetails with
      | [] => lit "No description provided"
      | d => d
      end)
  ++ lit "

File: " ++ template_string (file_to file) ++ lit "

Code Changes:
```diff
" ++ chunk_content chunk ++ lit "
" ++ join (lit "
") (map render_change (chunk_changes chunk)) ++ lit "
```

Respond with ONLY the JSON object, no other text:".

(** ** The pattern of line 150 *)

(** The longest prefix of [s] that ends with a closing brace: what the
    greedy [[\s\S]*] followed by the brace matches at the start of [s]. *)
Fixpoint greedy_to_brace (s : jsstring) : option jsstring :=
  match s with
  | [] => None
  | c :: r =>
      match greedy_to_brace r with
      | Some m => Some (c :: m)
      | None => if c =? 125 then Some [c] else None
      end
  end.

(** [res.match(/\{[\s\S]*\}/)]: the match at the leftmost position where
    one exists ([jsonMatch[0]]), or [None] for [null]. *)
Fixpoint match_braces (s : jsstring) : option jsstring :=
  match s with
  | [] => None
  | c :: r =>
      if c =? 123 then
        match greedy_to_brace r with
        | Some m => Some (c :: m)
        | None => match_braces r
        end
      else match_braces r
  end.

(** ** The world *)

(** What the program writes to the console, one constructor per call site
    of [console.log] and [console.error]. *)
Inductive LogEntry :=
| log_retrieved_diff (size : nat)                      (* line 58 *)
| error_fetching_diff (e : Error)                      (* line 61 *)
| log_analyzing_file (to : option jsstring)            (* line 74 *)
| log_ai_response (to : option jsstring) (r : JSValue) (* line 78 *)
| log_generated (n : nat) (to : option jsstring)       (* line 82 *)
| log_total_comments (n : nat)                         (* line 88 *)
| log_raw_ai_response (res : jsstring)                 (* line 146 *)
| log_parsed_ai_response (parsed : JSValue)            (* line 156 *)
| error_in_getAIResponse (e : Error)                   (* line 159 *)
| error_failed_response_text (res : jsstring)          (* line 160 *)
| log_event_action (action : option JSValue)           (* line 207 *)
| log_fetching_full_diff (n : N)                       (* line 211 *)
| log_unsupported_event (action : option JSValue)      (* line 218 *)
| log_no_diff_found                                    (* line 223 *)
| log_diff_size (size : nat)                           (* line 227 *)
| log_found_files (parsed filtered : nat)              (* line 242 *)
| log_files_to_analyze (files : list (option jsstring)) (* line 243 *)
| log_posting (n : nat)                                (* line 247 *)
| log_posted                                           (* line 254 *)
| log_no_issues                                        (* line 256 *)
| error_main (e : Error).                              (* line 261 *)

(** The observable history of a run.  [built] records the calls of
    [createPrompt] made by [analyzeCode], [prompts] the prompts sent to the
    model, [reviews] the calls of [octokit.pulls.createReview]. *)
Record World := {
  console : list LogEntry;
  built : list (File * Chunk);
  prompts : list jsstring;
  reviews : list (list ReviewComment)
}.

Definition initial_world : World :=
  {| console := []; built := []; prompts := []; reviews := [] |}.

(** What [openai.chat.completions.create] and the reading of
    [response.choices[0].message?.content] come to: an exception (the call
    rejects, or there is no first choice), or the content, [None] when the
    message or its content is [null] or [undefined]. *)
Inductive ModelReply :=
| reply_throws (e : Error)
| reply_content (content : option jsstring).

(** The collaborators of a run. *)
Record Env := {
  (* the outcome of [getPRDetails()], lines 26-42 *)
  pr_details : Completion PRDetails;
  (* the text [readFileSync] returns for the event file, line 204 *)
  event_file : Completion jsstring;
  (* [response.data] of [octokit.pulls.get] with the diff media type *)
  diff_response : Completion (option jsstring);
  (* [core.getInput("exclude")] *)
  exclude_input : jsstring;
  (* the [parse-diff] and [minimatch] packages *)
  parseDiff : jsstring -> Completion (list File);
  minimatch : jsstring -> jsstring -> bool;
  (* the model: the reply to a prompt, given how many calls came before *)
  model : nat -> jsstring -> ModelReply;
  (* the outcome of [octokit.pulls.createReview] *)
  createReview : list ReviewComment -> Completion unit
}.

(** An asynchronous function: it changes the world and completes. *)
Definition M (A : Type) : Type := World -> Completion A * World.

Definition ret {A} (a : A) : M A := fun w => (Normal a, w).

Definition throw {A} (e : Error) : M A := fun w => (Throw e, w).

Definition bind {A B} (m : M A) (k : A -> M B) : M B :=
  fun w =>
    match m w with
    | (Normal a, w') => k a w'
    | (Throw e, w') => (Throw e, w')
    end.

Definition lift {A} (c : Completion A) : M A := fun w => (c, w).

(** [try { m } catch (error) { h error }] *)
Definition try_catch {A} (m : M A) (h : Error -> M A) : M A :=
  fun w =>
    match m w with
    | (Normal a, w') => (Normal a, w')
    | (Throw e, w') => h e w'
    end.

Declare Scope m_scope.
Delimit Scope m_scope with M.
Notation "x <- m ;; k" := (bind m (fun x => k))
  (at level 61, m at next level, right associativity) : m_scope.
Notation "m ;; k" := (bind m (fun _ => k))
  (at level 61, right associativity) : m_scope.
Local Open Scope m_scope.

Definition log (l : LogEntry) : M unit :=
  fun w => (Normal tt,
            {| console := console w ++ [l]; built := built w;
               prompts := prompts w; reviews := reviews w |}).

Definition note_built (f : File) (c : Chunk) : M unit :=
  fun w => (Normal tt,
            {| console := console w; built := built w ++ [(f, c)];
               prompts := prompts w; reviews := reviews w |}).

(** ** The functions of [main.ts] *)

Section Pipeline.

Variable env : Env.

(** [await openai.chat.completions.create(...)], lines 135-145: the prompt
    is sent, the reply is the model's. *)
Definition ask_model (prompt : jsstring) : M ModelReply :=
  fun w => (Normal (model env (List.length (prompts w)) prompt),
            {| console := console w; built := built w;
               prompts := prompts w ++ [prompt]; reviews := reviews w |}).

(** [response.choices[0].message?.content?.trim() || "{}"], line 145 *)
Definition response_text (content : option jsstring) : jsstring :=
  match content with
  | None => lit "{}"
  | Some c => match trim c with
              | [] => lit "{}"
              | t => t
              end
  end.

(** Lines 149-153: the text handed to [JSON.parse]. *)
Definition jsonStr (res : jsstring) : jsstring :=
  match match_braces res with
  | Some m => m
  | None => res
  end.

(** [parsed.reviews || []], line 157 *)
Definition reviews_or_empty (parsed : JSValue) : Completion JSValue :=
  match GetV (Some parsed) (lit "reviews") with
  | Throw e => Throw e
  | Normal None => Normal (JArr [])
  | Normal (Some v) => Normal (if ToBoolean (Some v) then v else JArr [])
  end.

(** The [catch] block, lines 158-162, with the value [res] has when the
    exception is caught. *)
Definition getAIResponse_catch (res : jsstring) (error : Error) : M JSValue :=
  log (error_in_getAIResponse error) ;;
  log (error_failed_response_text (firstn 500 res)) ;;
  ret JNull.

(** Lines 145-162: [getAIResponse] from the reply of the model on. *)
Definition getAIResponse_from (reply : ModelReply) : M JSValue :=
  match reply with
  | reply_throws e => getAIResponse_catch (lit "{}") e
  | reply_content content =>
      let res := response_text content in
      try_catch
        (log (log_raw_ai_response (firstn 500 res)) ;;
         parsed <- lift (JSON.parse (jsonStr res)) ;;
         log (log_parsed_ai_response parsed) ;;
         lift (reviews_or_empty parsed))
        (getAIResponse_catch res)
  end.

(** [getAIResponse], lines 124-163. *)
Definition getAIResponse (prompt : jsstring) : M JSValue :=
  reply <- ask_model prompt ;;
  getAIResponse_from reply.

(** The callback of [flatMap], lines 173-182: an empty array, or one
    comment. *)
Definition comment_of (file : File) (aiResponse : JSValue)
  : Completion (list ReviewComment) :=
  match file_to file with
  | None | Some [] => Normal []
  | Some to =>
      match GetV (Some aiResponse) (lit "reviewComment") with
      | Throw e => Throw e
      | Normal reviewComment =>
          match GetV (Some aiResponse) (lit "lineNumber") with
          | Throw e => Throw e
          | Normal lineNumber =>
              Normal [{| body := reviewComment; path := to;
                         line := ToNumber lineNumber |}]
          end
      end
  end.

(** [items.flatMap(callback)]: the results of the callback, concatenated. *)
Fixpoint flatMap {A B} (f : A -> Completion (list B)) (items : list A)
  : Completion (list B) :=
  match items with
  | [] => Normal []
  | x :: r =>
      match f x with
      | Throw e => Throw e
      | Normal l =>
          match flatMap f r with
          | Throw e => Throw e
          | Normal l' => Normal (l ++ l')
          end
      end
  end.

(** [createComment], lines 165-183.  On a value that is not an array
    [aiResponses.flatMap] is not a function. *)
Definition createComment (file : File) (chunk : Chunk) (aiResponses : JSValue)
  : Completion (list ReviewComment) :=
  match aiResponses with
  | JArr items => flatMap (comment_of file) items
  | _ => Throw TypeError
  end.

(** [file.to === "/dev/null"] *)
Definition is_deleted (file : File) : bool :=
  match file_to file with
  | Some to => jsstring_eqb to (lit "/dev/null")
  | None => false
  end.

(** The inner loop of [analyzeCode], lines 75-86. *)
Fixpoint analyze_chunks (file : File) (prDetails : PRDetails)
  (chunks : list Chunk) (comments : list ReviewComment)
  : M (list ReviewComment) :=
  match chunks with
  | [] => ret comments
  | chunk :: rest =>
      note_built file chunk ;;
      let prompt := createPrompt file chunk prDetails in
      aiResponse <- getAIResponse prompt ;;
      log (log_ai_response (file_to file) aiResponse) ;;
      comments' <-
        (if ToBoolean (Some aiResponse) then
           newComments <- lift (createComment file chunk aiResponse) ;;
           log (log_generated (List.length newComments) (file_to file)) ;;
           ret (comments ++ newComments)
         else ret comments) ;;
      analyze_chunks file prDetails rest comments'
  end.

(** The outer loop of [analyzeCode], lines 72-87. *)
Fixpoint analyze_files (prDetails : PRDetails) (files : list File)
  (comments : list ReviewComment) : M (list ReviewComment) :=
  match files with
  | [] => ret comments
  | file :: rest =>
      if is_deleted file then analyze_files prDetails rest comments
      else
        log (log_analyzing_file (file_to file)) ;;
        comments' <- analyze_chunks file prDetails (file_chunks file)
                       comments ;;
        analyze_files prDetails rest comments'
  end.

(** [analyzeCode], lines 66-90. *)
Definition analyzeCode (parsedDiff : list File) (prDetails : PRDetails)
  : M (list ReviewComment) :=
  comments <- analyze_files prDetails parsedDiff [] ;;
  log (log_total_comments (List.length comments)) ;;
  ret comments.

(** [getDiff], lines 44-64: the diff, or [None] for [null]. *)
Definition getDiff (owner repo : jsstring) (pull_number : N)
  : M (option jsstring) :=
  try_catch
    (response_data <- lift (diff_response env) ;;
     match response_data with
     | Some diffData =>
         log (log_retrieved_diff (List.length diffData)) ;;
         ret (Some diffData)
     | None => throw TypeError
     end)
    (fun error => log (error_fetching_diff error) ;; ret None).

(** [createReviewComment], lines 185-198. *)
Definition createReviewComment (owner repo : jsstring) (pull_number : N)
  (comments : list ReviewComment) : M unit :=
  fun w =>
    (createReview env comments,
     {| console := console w; built := built w; prompts := prompts w;
        reviews := reviews w ++ [comments] |}).

(** [eventData.action === s] *)
Definition action_is (action : option JSValue) (s : jsstring) : bool :=
  match action with
  | Some (JStr a) => jsstring_eqb a s
  | _ => false
  end.

(** [file.to], or the empty string when it is [undefined] (line 238) *)
Definition to_or_empty (file : File) : jsstring :=
  match file_to file with
  | Some to => to
  | None => []
  end.

(** Lines 231-234: [core.getInput("exclude").split(",").map((s) => s.trim())] *)
Definition excludePatterns : list jsstring :=
  map trim (split_on 44 (exclude_input env)).

(** Lines 236-240: the files that match no exclusion pattern. *)
Definition filteredDiff (parsedDiff : list File) : list File :=
  filter (fun file =>
            negb (existsb (fun pattern =>
                             minimatch env (to_or_empty file) pattern)
                    excludePatterns))
    parsedDiff.

(** [main], lines 200-258. *)
Definition main : M unit :=
  prDetails <- lift (pr_details env) ;;
  text <- lift (event_file env) ;;
  eventData <- lift (JSON.parse text) ;;
  action <- lift (GetV (Some eventData) (lit "action")) ;;
  log (log_event_action action) ;;
  if action_is action (lit "opened") || action_is action (lit "synchronize")
  then
    log (log_fetching_full_diff (pull_number prDetails)) ;;
    diff <- getDiff (owner prDetails) (repo prDetails)
              (pull_number prDetails) ;;
    match diff with
    | None | Some [] => log log_no_diff_found ;; ret tt
    | Some diff =>
        log (log_diff_size (List.length diff)) ;;
        parsedDiff <- lift (parseDiff env diff) ;;
        log (log_found_files (List.length parsedDiff)
               (List.length (filteredDiff parsedDiff))) ;;
        log (log_files_to_analyze (map file_to (filteredDiff parsedDiff))) ;;
        comments <- analyzeCode (filteredDiff parsedDiff) prDetails ;;
        match comments with
        | _ :: _ =>
            log (log_posting (List.length comments)) ;;
            createReviewComment (owner prDetails) (repo prDetails)
              (pull_number prDetails) comments ;;
            log log_posted
        | [] => log log_no_issues
        end
    end
  else
    log (log_unsupported_event action) ;; ret tt.

(** How the process ends. *)
Inductive ExitStatus :=
| exit_success     (* [main()] resolved: the process ends with code 0 *)
| exit_failure.    (* [process.exit(1)], line 262 *)

(** Lines 260-263: [main().catch(...)], from the initial world. *)
Definition run : ExitStatus * World :=
  match main initial_world with
  | (Normal _, w) => (exit_success, w)
  | (Throw e, w) =>
      (exit_failure,
       {| console := console w ++ [error_main e]; built := built w;
          prompts := prompts w; reviews := reviews w |})
  end.

End Pipeline.

(** ** [getPRDetails] (lines 26-42) *)

(** What [octokit.pulls.get] answers: [prResponse.data.title] and
    [prResponse.data.body], [None] for [null] or [undefined]. *)
Record PullData := {
  data_title : option jsstring;
  data_body : option jsstring
}.

(** The object [getPRDetails] returns.  The first three fields are read
    from the event payload and are whatever JSON values it holds there
    ([PRDetails] above is the case in which they have the declared types);
    the last two are strings. *)
Record PRDetailsValue := {
  pr_owner : option JSValue;
  pr_repo : option JSValue;
  pr_pull_number : option JSValue;
  pr_title : jsstring;
  pr_description : jsstring
}.

(** [s ?? e] with the empty string for [e] *)
Definition or_empty (s : option jsstring) : jsstring :=
  match s with
  | Some x => x
  | None => []
  end.

(** Sequencing of evaluations that may throw. *)
Definition and_then {A B : Type} (c : Completion A) (k : A -> Completion B)
  : Completion B :=
  match c with
  | Normal a => k a
  | Throw e => Throw e
  end.

Declare Scope completion_scope.
Delimit Scope completion_scope with C.
Notation "x <- c ;; k" := (and_then c (fun x => k))
  (at level 61, c at next level, right associativity) : completion_scope.

(** [getPRDetails]: [event] is the outcome of reading the event file
    (line 28), [pulls_get] the outcome of [octokit.pulls.get] for the
    owner, repository and number it is called with (lines 30-34).  The
    payload is destructured ([repository], then [number]), the arguments of
    the call are evaluated in the order written, and the object returned
    reads the same properties again. *)
Definition getPRDetails (event : Completion jsstring)
  (pulls_get : option JSValue -> option JSValue -> option JSValue ->
               Completion PullData)
  : Completion PRDetailsValue :=
  (text <- event ;;
   payload <- JSON.parse text ;;
   repository <- GetV (Some payload) (lit "repository") ;;
   number <- GetV (Some payload) (lit "number") ;;
   repository_owner <- GetV repository (lit "owner") ;;
   login <- GetV repository_owner (lit "login") ;;
   name <- GetV repository (lit "name") ;;
   data <- pulls_get login name number ;;
   Normal {| pr_owner := login;
             pr_repo := name;
             pr_pull_number := number;
             pr_title := or_empty (data_title data);
             pr_description := or_empty (data_body data) |})%C.

(** ** Derived views, used in the statements *)

(** The value [getAIResponse] returns for a reply of the model. *)
Definition returned (reply : ModelReply) : JSValue :=
  match reply with
  | reply_throws _ => JNull
  | reply_content content =>
      match JSON.parse (jsonStr (response_text content)) with
      | Throw _ => JNull
      | Normal parsed =>
          match reviews_or_empty parsed with
          | Throw _ => JNull
          | Normal v => v
          end
      end
  end.

(** The value [getAIResponse] returns for the text handed to [JSON.parse]
    (lines 155-162): the [reviews] of a parsed text, [null] after an
    exception. *)
Definition interpreted (candidate : jsstring) : JSValue :=
  match JSON.parse candidate with
  | Throw _ => JNull
  | Normal parsed =>
      match reviews_or_empty parsed with
      | Throw _ => JNull
      | Normal v => v
      end
  end.

(** The value of [r.key] for an array element [r], [None] when it is
    [undefined]. *)
Definition property (r : JSValue) (key : jsstring) : option JSValue :=
  match GetV (Some r) key with
  | Normal v => v
  | Throw _ => None
  end.


(** The comment [createComment] makes of one entry for a file whose path
    is [to]. *)
Definition comment_for (to : jsstring) (r : JSValue) : ReviewComment :=
  {| body := property r (lit "reviewComment");
     path := to;
     line := ToNumber (property r (lit "lineNumber")) |}.

(** Two worlds with the same calls: they differ in console output only. *)
Definition same_calls (w w' : World) : Prop :=
  built w' = built w /\ prompts w' = prompts w /\ reviews w' = reviews w.

(** The end of [main], lines 246-257: what is done with the comments
    [analyzeCode] returned. *)
Definition post_comments (env : Env) (prDetails : PRDetails)
  (comments : list ReviewComment) : M unit :=
  match comments with
  | _ :: _ =>
      log (log_posting (List.length comments)) ;;
      createReviewComment env (owner prDetails) (repo prDetails)
        (pull_number prDetails) comments ;;
      log log_posted
  | [] => log log_no_issues
  end.

(** The diff request failed ([getDiff] catches the exception and returns
    [null]), or it returned nothing. *)
Definition diff_unavailable (r : Completion (option jsstring)) : bool :=
  match r with
  | Throw _ => true
  | Normal None => true
  | Normal (Some []) => true
  | Normal (Some (_ :: _)) => false
  end.

(** The outermost container under construction is an object. *)
Definition bottom_is_object (stack : list JSON.frame) : bool :=
  match last stack (JSON.FArray []) with
  | JSON.FObject _ _ => true
  | JSON.FArray _ => false
  end.

(** The value the parser is building is an object: the outermost container
    is one, or the complete value is one. *)
Definition object_pending (st : JSON.parse_state) : bool :=
  match st with
  | JSON.PAfter (JObj _) [] => true
  | JSON.PAfter _ stack | JSON.PValue stack | JSON.PFirstElement stack =>
      bottom_is_object stack
  | JSON.PFirstKey [] | JSON.PKey _ [] | JSON.PColon _ _ [] => true
  | JSON.PFirstKey stack | JSON.PKey _ stack | JSON.PColon _ _ stack =>
      bottom_is_object stack
  end.

(** ** Sample inputs and collaborators *)

(** The entry with the given [lineNumber] and the comment [x]. *)
Definition sample_entry (lineNumber : string) : JSValue :=
  JObj [(lit "lineNumber", JStr (lit lineNumber));
        (lit "reviewComment", JStr (lit "x"))].

Definition sample_pr : PRDetails :=
  {| owner := lit "octo"; repo := lit "demo"; pull_number := 7;
     title := lit "Fix parser"; description := [] |}.

Definition sample_chunk : Chunk :=
  {| chunk_content := lit "@@ -1,2 +1,2 @@";
     chunk_changes := [DeleteChange 1 (lit "-old"); AddChange 1 (lit "+new");
                       NormalChange 2 2 (lit " same")] |}.

Definition sample_file (to : string) : File :=
  {| file_to := Some (lit to); file_chunks := [sample_chunk] |}.

(** A run on an [opened] event, with the given outcome of the diff
    request, parsed files and reply of the model; nothing is excluded and
    the review API accepts the review. *)
Definition sample_env (diff : Completion (option jsstring))
  (files : list File) (reply : ModelReply) : Env :=
  {| pr_details := Normal sample_pr;
     event_file := Normal (qlit "{'action':'opened'}");
     diff_response := diff;
     exclude_input := [];
     parseDiff := fun _ => Normal files;
     minimatch := fun _ _ => false;
     model := fun _ _ => reply;
     createReview := fun _ => Normal tt |}.

(** * Properties *)

Unset Implicit Arguments.

(** ** Strings: [trim] and the pattern of line 150 *)

Lemma jsstring_eqb_eq (a b : jsstring) : jsstring_eqb a b = true <-> a = b.
Proof.
  revert b; induction a as [|x a IH]; intros [|y b]; simpl;
    try (split; [discriminate | congruence]); try tauto.
  rewrite andb_true_iff, N.eqb_eq, IH.
  split; [intros [-> ->]; reflexivity | intros H; inversion H; auto].
Qed.

Lemma jsstring_eqb_refl (a : jsstring) : jsstring_eqb a a = true.
Proof. apply jsstring_eqb_eq; reflexivity. Qed.

Lemma trimStart_whitespace (s : jsstring) :
  Forall (fun c => is_js_whitespace c = true) s -> trimStart s = [].
Proof.
  induction 1 as [|c r Hc _ IH]; simpl; [reflexivity|].
  rewrite Hc; exact IH.
Qed.

Lemma trim_whitespace (s : jsstring) :
  Forall (fun c => is_js_whitespace c = true) s -> trim s = [].
Proof.
  intros H; unfold trim; rewrite (trimStart_whitespace s H); reflexivity.
Qed.

Lemma trimStart_app (pre : jsstring) (c : code_unit) (r : jsstring) :
  is_js_whitespace c = false ->
  trimStart (pre ++ c :: r) = trimStart pre ++ c :: r.
Proof.
  intros Hc; induction pre as [|x pre IH]; simpl.
  - rewrite Hc; reflexivity.
  - destruct (is_js_whitespace x); [exact IH | reflexivity].
Qed.

Lemma trimEnd_app (l : jsstring) (c : code_unit) (post : jsstring) :
  is_js_whitespace c = false ->
  trimEnd (l ++ c :: post) = l ++ c :: trimEnd post.
Proof.
  intros Hc; unfold trimEnd.
  rewrite rev_app_distr; simpl; rewrite <- app_assoc; simpl.
  rewrite (trimStart_app _ _ _ Hc), rev_app_distr; simpl.
  rewrite rev_involutive, <- app_assoc; reflexivity.
Qed.

Lemma trimStart_incl (x : code_unit) (s : jsstring) :
  In x (trimStart s) -> In x s.
Proof.
  induction s as [|c r IH]; simpl; [tauto|].
  destruct (is_js_whitespace c); simpl; tauto.
Qed.

Lemma trimEnd_incl (x : code_unit) (s : jsstring) :
  In x (trimEnd s) -> In x s.
Proof.
  unfold trimEnd; intros H.
  apply (proj2 (in_rev _ _)) in H; apply trimStart_incl in H.
  apply (proj2 (in_rev _ _)) in H; exact H.
Qed.

Lemma greedy_to_brace_none (s : jsstring) :
  ~ In 125 s -> greedy_to_brace s = None.
Proof.
  induction s as [|c r IH]; simpl; intros H; [reflexivity|].
  rewrite IH by tauto.
  destruct (N.eqb_spec c 125); [subst; tauto | reflexivity].
Qed.

Lemma greedy_to_brace_last (mid post : jsstring) :
  ~ In 125 post -> greedy_to_brace (mid ++ 125 :: post) = Some (mid ++ [125]).
Proof.
  intros H; induction mid as [|c mid IH]; simpl.
  - rewrite (greedy_to_brace_none _ H); reflexivity.
  - rewrite IH; reflexivity.
Qed.

(** The pattern matches from the first opening brace through the last
    closing brace. *)
Lemma match_braces_first_last (pre mid post : jsstring) :
  ~ In 123 pre -> ~ In 125 post ->
  match_braces (pre ++ 123 :: mid ++ 125 :: post) = Some (123 :: mid ++ [125]).
Proof.
  intros Hpre Hpost; induction pre as [|c pre IH]; simpl.
  - rewrite (greedy_to_brace_last mid post Hpost); reflexivity.
  - destruct (N.eqb_spec c 123); [subst; simpl in Hpre; tauto|].
    apply IH; simpl in Hpre; tauto.
Qed.

(** Without an opening brace there is no match. *)
Lemma match_braces_none (s : jsstring) : ~ In 123 s -> match_braces s = None.
Proof.
  induction s as [|c r IH]; simpl; intros H; [reflexivity|].
  destruct (N.eqb_spec c 123); [subst; tauto | apply IH; tauto].
Qed.

(** ** The Response Interpreter *)

(** What [getAIResponse] returns is decided by the text handed to
    [JSON.parse]; the world only collects the console output. *)
Lemma getAIResponse_from_value (content : option jsstring) (w : World) :
  fst (getAIResponse_from (reply_content content) w)
  = Normal (interpreted (jsonStr (response_text content))).
Proof.
  unfold getAIResponse_from, interpreted, try_catch, bind, lift, log, ret,
    getAIResponse_catch; simpl.
  destruct (JSON.parse (jsonStr (response_text content))) as [parsed|e]; simpl;
    [|reflexivity].
  destruct (reviews_or_empty parsed); reflexivity.
Qed.

Lemma getAIResponse_value (env : Env) (prompt : jsstring) (w : World) :
  fst (getAIResponse env prompt w)
  = fst (getAIResponse_from (model env (List.length (prompts w)) prompt)
           initial_world).
Proof.
  unfold getAIResponse, bind, ask_model; simpl.
  destruct (model env (List.length (prompts w)) prompt) as [e|content].
  - reflexivity.
  - rewrite !getAIResponse_from_value; reflexivity.
Qed.

Lemma response_text_of_object (pre mid post : jsstring) :
  response_text (Some (pre ++ (123 :: mid ++ [125]) ++ post))
  = trimStart pre ++ 123 :: mid ++ 125 :: trimEnd post.
Proof.
  unfold response_text, trim.
  replace (pre ++ (123 :: mid ++ [125]) ++ post)
    with (pre ++ 123 :: (mid ++ 125 :: post))
    by (simpl; rewrite <- app_assoc; reflexivity).
  rewrite trimStart_app by reflexivity.
  rewrite !trimEnd_app by reflexivity.
  destruct (trimStart pre); reflexivity.
Qed.

(** C3, as the code has it.  [getAIResponse] is total and never throws:
    for every reply of the model, in every world, it completes normally.
    The value it returns is [null] (the failure signal), or the empty list,
    or the truthy [reviews] property of the object parsed from the text
    handed to [JSON.parse]; nothing checks that this property is a list. *)
Theorem getAIResponse_total (env : Env) (prompt : jsstring) (w : World) :
  exists v w',
    getAIResponse env prompt w = (Normal v, w') /\
    (v = JNull \/ v = JArr [] \/
     (ToBoolean (Some v) = true /\
      exists content parsed,
        model env (List.length (prompts w)) prompt = reply_content content /\
        JSON.parse (jsonStr (response_text content)) = Normal parsed /\
        GetV (Some parsed) (lit "reviews") = Normal (Some v))).
Proof.
  unfold getAIResponse, bind, ask_model; simpl.
  destruct (model env (List.length (prompts w)) prompt) as [e|content] eqn:E.
  - do 2 eexists; split; [reflexivity | left; reflexivity].
  - unfold getAIResponse_from, try_catch, bind, lift, log, ret,
      getAIResponse_catch; simpl.
    destruct (JSON.parse (jsonStr (response_text content))) as [parsed|e]
      eqn:P; simpl;
      [|do 2 eexists; split; [reflexivity | left; reflexivity]].
    unfold reviews_or_empty.
    destruct (GetV (Some parsed) (lit "reviews")) as [[v|]|e] eqn:G.
    + destruct (ToBoolean (Some v)) eqn:T.
      * do 2 eexists; split; [reflexivity|].
        right; right; split; [exact T|].
        exists content, parsed; auto.
      * do 2 eexists; split; [reflexivity | right; left; reflexivity].
    + do 2 eexists; split; [reflexivity | right; left; reflexivity].
    + do 2 eexists; split; [reflexivity | left; reflexivity].
Qed.

(** C3, as stated, fails: when the model answers with an object whose
    [reviews] is the string [x], [getAIResponse] returns that string, which
    is neither a list nor [null]. *)
Lemma getAIResponse_returns_non_list :
  let env := sample_env (Normal None) []
               (reply_content (Some (qlit "{'reviews':'x'}"))) in
  fst (getAIResponse env (lit "prompt") initial_world) = Normal (JStr (lit "x"))
  /\ JStr (lit "x") <> JNull
  /\ forall l, JStr (lit "x") <> JArr l.
Proof.
  split; [vm_compute; reflexivity|].
  split; [discriminate | intros l; discriminate].
Qed.

(** C4.  For a response text that is an object wrapped in prose (no
    opening brace before the object, no closing brace after it), the text
    handed to [JSON.parse] is the stretch from the first opening brace
    through the last closing brace, and the result of [getAIResponse] is
    the result for that stretch.  On the text of the example the result is
    the empty list. *)
Theorem getAIResponse_object_in_prose (pre mid post : jsstring) (w : World)
  (Hpre : ~ In 123 pre) (Hpost : ~ In 125 post) :
  let object := 123 :: mid ++ [125] in
  let content := pre ++ object ++ post in
  jsonStr (response_text (Some content)) = object
  /\ fst (getAIResponse_from (reply_content (Some content)) w)
     = Normal (interpreted object)
  /\ fst (getAIResponse_from
            (reply_content (Some (qlit "Here you go:
{'reviews':[]}
Thanks"))) w)
     = Normal (JArr []).
Proof.
  intros object content.
  assert (Hjson : jsonStr (response_text (Some content)) = object).
  { unfold content, object, jsonStr.
    rewrite response_text_of_object, match_braces_first_last; [reflexivity| |].
    - intros H; apply Hpre, trimStart_incl, H.
    - intros H; apply Hpost, trimEnd_incl, H. }
  split; [exact Hjson|].
  split.
  - rewrite getAIResponse_from_value, Hjson; reflexivity.
  - rewrite getAIResponse_from_value; vm_compute; reflexivity.
Qed.

Lemma getAIResponse_object_in_prose_witness :
  jsonStr (response_text (Some (qlit "Here you go:
{'reviews':[]}
Thanks"))) = qlit "{'reviews':[]}".
Proof.
  refine (proj1 (getAIResponse_object_in_prose (qlit "Here you go:
") (qlit "'reviews':[]") (qlit "
Thanks") initial_world _ _)).
  - vm_compute; intuition discriminate.
  - vm_compute; intuition discriminate.
Defined.

(** C9.  When the content of the reply is empty or consists of white space
    only, the response text defaults to the two braces, which parse to an
    object without properties; the missing [reviews] defaults to the empty
    list, which [getAIResponse] returns: a success, not [null]. *)
Theorem getAIResponse_blank_content (content : jsstring) (w : World)
  (Hblank : Forall (fun c => is_js_whitespace c = true) content) :
  response_text (Some content) = lit "{}"
  /\ JSON.parse (jsonStr (lit "{}")) = Normal (JObj [])
  /\ GetV (Some (JObj [])) (lit "reviews") = Normal None
  /\ fst (getAIResponse_from (reply_content (Some content)) w)
     = Normal (JArr []).
Proof.
  assert (Hres : response_text (Some content) = lit "{}").
  { unfold response_text; rewrite (trim_whitespace content Hblank).
    reflexivity. }
  split; [exact Hres|].
  split; [vm_compute; reflexivity|].
  split; [reflexivity|].
  rewrite getAIResponse_from_value, Hres; vm_compute; reflexivity.
Qed.

Lemma getAIResponse_blank_content_witness :
  fst (getAIResponse_from (reply_content (Some (lit "  
 "))) initial_world) = Normal (JArr []).
Proof.
  refine (proj2 (proj2 (proj2
            (getAIResponse_blank_content (lit "  
 ") initial_world _)))).
  vm_compute; repeat constructor.
Defined.

(** C10.  A complete, valid JSON object followed by further text with
    braces: the stretch from the first opening brace through the last
    closing brace is the whole input, which is not valid JSON, and
    [getAIResponse] returns [null]. *)
Theorem getAIResponse_rejects_trailing_braces :
  exists object rest : jsstring,
    JSON.parse object = Normal (JObj [(lit "reviews", JArr [])])
    /\ object ++ rest = qlit "{'reviews':[]} see also {}"
    /\ jsonStr (response_text (Some (object ++ rest))) = object ++ rest
    /\ JSON.parse (object ++ rest) = Throw SyntaxError
    /\ forall w, fst (getAIResponse_from
                        (reply_content (Some (object ++ rest))) w)
                 = Normal JNull.
Proof.
  exists (qlit "{'reviews':[]}"), (lit " see also {}").
  split; [vm_compute; reflexivity|].
  split; [vm_compute; reflexivity|].
  split; [vm_compute; reflexivity|].
  split; [vm_compute; reflexivity|].
  intros w; rewrite getAIResponse_from_value; vm_compute; reflexivity.
Qed.

(** ** The Comment Mapper *)


Lemma comment_of_entry (file : File) (to : jsstring) (r : JSValue) :
  file_to file = Some to -> to <> [] -> r <> JNull ->
  comment_of file r = Normal [comment_for to r].
Proof.
  intros Hto Hne Hr; unfold comment_of, comment_for, property; rewrite Hto.
  destruct to as [|c to]; [congruence|].
  destruct r; try congruence; reflexivity.
Qed.





(** C5.  The response text of the example, interpreted and then mapped for
    a file whose path is [a.ts], gives exactly one ReviewComment, with that
    path, line 42 and body [x]. *)
Theorem response_to_comment_roundtrip (chunks : list Chunk) (chunk : Chunk)
  (w : World) :
  let file := {| file_to := Some (lit "a.ts"); file_chunks := chunks |} in
  let text := qlit "{'reviews':[{'lineNumber':'42','reviewComment':'x'}]}" in
  exists aiResponse,
    fst (getAIResponse_from (reply_content (Some text)) w) = Normal aiResponse
    /\ ToBoolean (Some aiResponse) = true
    /\ createComment file chunk aiResponse
       = Normal [ {| body := Some (JStr (lit "x")); path := lit "a.ts";
                     line := number_of_Z 42 |} ]
    /\ number_to_Z (number_of_Z 42) = Some 42%Z.
Proof.
  intros file text.
  exists (JArr [sample_entry "42"]).
  split; [rewrite getAIResponse_from_value; vm_compute; reflexivity|].
  split; [reflexivity|].
  split; vm_compute; reflexivity.
Qed.

(** ** The Pipeline Orchestrator *)

Lemma same_calls_refl (w : World) : same_calls w w.
Proof. unfold same_calls; auto. Qed.

(** Console output leaves the calls as they are. *)
Ltac console_only := unfold same_calls; simpl; auto.

(** [getAIResponse_from] completes normally and only writes to the
    console. *)
Lemma getAIResponse_from_same_calls (reply : ModelReply) (w : World) :
  exists v w', getAIResponse_from reply w = (Normal v, w') /\ same_calls w w'.
Proof.
  destruct reply as [e|content];
    unfold getAIResponse_from, try_catch, bind, lift, log, ret,
      getAIResponse_catch; simpl.
  - do 2 eexists; split; [reflexivity | console_only].
  - destruct (JSON.parse (jsonStr (response_text content))) as [parsed|e];
      simpl;
      [|do 2 eexists; split; [reflexivity | console_only]].
    destruct (reviews_or_empty parsed);
      do 2 eexists; (split; [reflexivity | console_only]).
Qed.

(** [getAIResponse] sends exactly the prompt it is given. *)
Lemma getAIResponse_calls (env : Env) (prompt : jsstring) (w : World) :
  exists v w',
    getAIResponse env prompt w = (Normal v, w') /\
    built w' = built w /\ prompts w' = prompts w ++ [prompt] /\
    reviews w' = reviews w.
Proof.
  unfold getAIResponse, bind, ask_model; simpl.
  match goal with
  | |- context [getAIResponse_from ?r ?w0] =>
      destruct (getAIResponse_from_same_calls r w0) as (v & w' & E & B & P & R)
  end.
  rewrite E; exists v, w'; simpl in *; auto.
Qed.

(** Every comment of [createComment] is on the path of its file. *)
Lemma createComment_path (file : File) (chunk : Chunk) (v : JSValue)
  (out : list ReviewComment) :
  createComment file chunk v = Normal out ->
  Forall (fun c => file_to file = Some (path c)) out.
Proof.
  destruct v as [| | | |items|]; simpl; try discriminate.
  revert out; induction items as [|r items IH]; simpl; intros out H.
  - inversion H; constructor.
  - destruct (comment_of file r) as [l|] eqn:C; [|discriminate].
    destruct (flatMap (comment_of file) items) as [l'|]; [|discriminate].
    inversion H; subst; apply Forall_app; split; [|apply IH; reflexivity].
    unfold comment_of in C.
    destruct (file_to file) as [[|c to]|]; try (inversion C; constructor).
    destruct (GetV (Some r) (lit "reviewComment")); [|discriminate].
    destruct (GetV (Some r) (lit "lineNumber")); [|discriminate].
    inversion C; repeat constructor.
Qed.

(** How a sequence of two steps comes to its result. *)
Lemma bind_inv {A B : Type} (m : M A) (k : A -> M B) (w : World)
  (r : Completion B) (w' : World) :
  bind m k w = (r, w') ->
  (exists a w1, m w = (Normal a, w1) /\ k a w1 = (r, w'))
  \/ (exists e, m w = (Throw e, w') /\ r = Throw e).
Proof.
  unfold bind; destruct (m w) as [[a|e] w1]; intros H.
  - left; eauto.
  - right; inversion H; eauto.
Qed.

(** What a pass over the chunks of one file does: one call of
    [createPrompt] and one call of the model for each chunk it gets to, in
    order, with the prompt [createPrompt] built; the comments it adds are
    on the path of the file. *)
Lemma analyze_chunks_calls (env : Env) (file : File) (pr : PRDetails)
  (chunks : list Chunk) :
  forall (comments : list ReviewComment) (w : World)
         (r : Completion (list ReviewComment)) (w' : World),
  analyze_chunks env file pr chunks comments w = (r, w') ->
  exists done rest',
    chunks = done ++ rest'
    /\ (chunks <> [] -> done <> [])
    /\ built w' = built w ++ map (pair file) done
    /\ prompts w' = prompts w ++ map (fun c => createPrompt file c pr) done
    /\ reviews w' = reviews w
    /\ match r with
       | Normal out =>
           exists new, out = comments ++ new
                       /\ Forall (fun c => file_to file = Some (path c)) new
       | Throw _ => True
       end.
Proof.
  induction chunks as [|chunk rest IH]; intros comments w r w' H;
    cbn [analyze_chunks] in H.
  - inversion H; subst; exists [], []; simpl; rewrite !app_nil_r.
    repeat split; [congruence|].
    exists []; rewrite app_nil_r; auto.
  - apply bind_inv in H as [(? & w1 & E1 & H) | (e & E1 & _)];
      [|discriminate E1].
    inversion E1; subst; clear E1.
    apply bind_inv in H as [(v & w2 & E2 & H) | (e & E2 & _)].
    2:{ destruct (getAIResponse_calls env (createPrompt file chunk pr)
                    {| console := console w; built := built w ++ [(file, chunk)];
                       prompts := prompts w; reviews := reviews w |})
          as (v & w2 & E & _); congruence. }
    destruct (getAIResponse_calls env (createPrompt file chunk pr)
                {| console := console w; built := built w ++ [(file, chunk)];
                   prompts := prompts w; reviews := reviews w |})
      as (v' & w2' & E & B2 & P2 & R2).
    rewrite E in E2; inversion E2; subst; clear E2; simpl in B2, P2, R2.
    apply bind_inv in H as [(? & w3 & E3 & H) | (e & E3 & _)];
      [|discriminate E3].
    inversion E3; subst; clear E3.
    apply bind_inv in H as [(comments' & w4 & E4 & H) | (e & E4 & ->)].
    + apply IH in H as (done & rest' & Hin & _ & B & P & R & Hout).
      assert (H4 : same_calls w2 w4 /\ exists new, comments' = comments ++ new
                /\ Forall (fun c => file_to file = Some (path c)) new).
      { destruct (ToBoolean (Some v)).
        - apply bind_inv in E4 as [(nc & w5 & E5 & E4) | (e & E5 & ?)];
            [|discriminate].
          unfold lift in E5; inversion E5; subst.
          apply bind_inv in E4 as [(? & w6 & E6 & E4) | (e & E6 & ?)];
            [|discriminate].
          inversion E6; inversion E4; subst.
          split; [console_only|].
          exists nc; split; [reflexivity|].
          eapply createComment_path; eassumption.
        - inversion E4; subst; split; [console_only|].
          exists []; rewrite app_nil_r; auto. }
      destruct H4 as ((B4 & P4 & R4) & new4 & -> & Hnew4).
      exists (chunk :: done), rest'; simpl.
      rewrite B, P, R, B4, P4, R4, B2, P2, R2, <- !app_assoc; simpl.
      repeat split; auto; [congruence | discriminate |].
      destruct r; [|exact I].
      destruct Hout as (new & -> & Hnew).
      exists (new4 ++ new); rewrite app_assoc; split; [reflexivity|].
      apply Forall_app; split; assumption.
    + destruct (ToBoolean (Some v)); [|discriminate E4].
      apply bind_inv in E4 as [(nc & w5 & E5 & E4) | (e' & E5 & ?)].
      * apply bind_inv in E4 as [(? & w6 & E6 & E4) | (e' & E6 & ?)];
          discriminate.
      * unfold lift in E5; inversion E5; subst.
        exists [chunk], rest; simpl; rewrite B2, P2, R2.
        repeat split; auto; discriminate.
Qed.

(** The same for a pass over the files: every chunk sent belongs to a file
    of the list that is not deleted. *)
Lemma analyze_files_calls (env : Env) (pr : PRDetails) (files : list File) :
  forall (comments : list ReviewComment) (w : World)
         (r : Completion (list ReviewComment)) (w' : World),
  analyze_files env pr files comments w = (r, w') ->
  exists sent : list (File * Chunk),
    Forall (fun fc => In (fst fc) files /\ is_deleted (fst fc) = false
                      /\ In (snd fc) (file_chunks (fst fc))) sent
    /\ built w' = built w ++ sent
    /\ prompts w'
       = prompts w ++ map (fun fc => createPrompt (fst fc) (snd fc) pr) sent
    /\ reviews w' = reviews w
    /\ match r with
       | Normal out =>
           exists new,
             out = comments ++ new
             /\ Forall (fun c => exists f, In f files /\ is_deleted f = false
                                           /\ file_to f = Some (path c)) new
       | Throw _ => True
       end.
Proof.
  induction files as [|file rest IH]; intros comments w r w' H;
    cbn [analyze_files] in H.
  - inversion H; subst; exists []; simpl; rewrite !app_nil_r.
    repeat split; auto.
    exists []; rewrite app_nil_r; auto.
  - destruct (is_deleted file) eqn:D.
    + apply IH in H as (sent & Hsent & B & P & R & Hout).
      exists sent; repeat split; auto.
      * eapply Forall_impl; [|exact Hsent].
        simpl; intros fc (a & b & c); auto.
      * destruct r; [|exact I].
        destruct Hout as (new & -> & Hnew); exists new; split; [reflexivity|].
        eapply Forall_impl; [|exact Hnew].
        simpl; intros c (f & a & b); exists f; auto.
    + apply bind_inv in H as [(? & w1 & E1 & H) | (e & E1 & _)];
        [|discriminate E1].
      inversion E1; subst; clear E1.
      apply bind_inv in H as [(comments' & w2 & E2 & H) | (e & E2 & ->)].
      * apply analyze_chunks_calls in E2
          as (done & rest' & Hin & _ & B2 & P2 & R2 & new2 & -> & Hnew2).
        apply IH in H as (sent & Hsent & B & P & R & Hout).
        simpl in B2, P2, R2.
        exists (map (pair file) done ++ sent).
        rewrite B, P, R, B2, P2, R2, map_app, map_map, <- !app_assoc; simpl.
        repeat split; auto.
        -- apply Forall_app; split.
           ++ apply Forall_forall; intros fc Hfc.
              apply in_map_iff in Hfc as (c & <- & Hc); simpl.
              rewrite Hin; auto using in_or_app.
           ++ eapply Forall_impl; [|exact Hsent].
              simpl; intros fc (a & b & c); auto.
        -- destruct r; [|exact I].
           destruct Hout as (new & -> & Hnew).
           exists (new2 ++ new); rewrite app_assoc; split; [reflexivity|].
           apply Forall_app; split.
           ++ eapply Forall_impl; [|exact Hnew2].
              simpl; intros c Hc; exists file; auto.
           ++ eapply Forall_impl; [|exact Hnew].
              simpl; intros c (f & a & b); exists f; auto.
      * apply analyze_chunks_calls in E2
          as (done & rest' & Hin & _ & B2 & P2 & R2 & _).
        simpl in B2, P2, R2.
        exists (map (pair file) done).
        rewrite B2, P2, R2, map_map; simpl.
        repeat split; auto.
        apply Forall_forall; intros fc Hfc.
        apply in_map_iff in Hfc as (c & <- & Hc); simpl.
        rewrite Hin; auto using in_or_app.
Qed.

(** The deleted files might as well not be in the list. *)
Lemma analyze_files_filter (env : Env) (pr : PRDetails) (files : list File) :
  forall (comments : list ReviewComment) (w : World),
  analyze_files env pr files comments w
  = analyze_files env pr (filter (fun f => negb (is_deleted f)) files)
      comments w.
Proof.
  induction files as [|file rest IH]; intros comments w; [reflexivity|].
  cbn [analyze_files filter].
  destruct (is_deleted file) eqn:D; cbn [negb]; [apply IH|].
  cbn [analyze_files]; rewrite D.
  unfold bind.
  destruct (log (log_analyzing_file (file_to file)) w) as [[?|?] w1];
    [|reflexivity].
  destruct (analyze_chunks env file pr (file_chunks file) comments w1)
    as [[comments'|?] w2]; [apply IH | reflexivity].
Qed.

Lemma not_deleted_path (f : File) (p : jsstring) :
  is_deleted f = false -> file_to f = Some p -> p <> lit "/dev/null".
Proof.
  unfold is_deleted; intros D E; rewrite E in D; intros ->.
  rewrite jsstring_eqb_refl in D; discriminate.
Qed.

(** C6.  A file whose destination is [/dev/null] takes no part in
    [analyzeCode]: the run is the run on the list without the deleted
    files; no chunk of the file is handed to [createPrompt], and the
    prompts sent to the model are exactly those built; no comment returned
    is on the path [/dev/null], the path of the file. *)
Theorem analyzeCode_skips_deleted (env : Env) (files : list File)
  (pr : PRDetails) (file : File) (w : World)
  (Hdel : is_deleted file = true) :
  analyzeCode env files pr w
  = analyzeCode env (filter (fun f => negb (is_deleted f)) files) pr w
  /\ (exists sent : list (File * Chunk),
        built (snd (analyzeCode env files pr w)) = built w ++ sent
        /\ prompts (snd (analyzeCode env files pr w))
           = prompts w
             ++ map (fun fc => createPrompt (fst fc) (snd fc) pr) sent
        /\ forall chunk, ~ In (file, chunk) sent)
  /\ match fst (analyzeCode env files pr w) with
     | Normal comments =>
         Forall (fun c => path c <> lit "/dev/null"
                          /\ file_to file <> Some (path c)) comments
     | Throw _ => True
     end.
Proof.
  split.
  { unfold analyzeCode, bind; rewrite analyze_files_filter; reflexivity. }
  unfold analyzeCode, bind.
  destruct (analyze_files env pr files [] w) as [r w1] eqn:E.
  apply analyze_files_calls in E as (sent & Hsent & B & P & R & Hout).
  assert (Hfile : forall chunk, ~ In (file, chunk) sent).
  { intros chunk Hin; rewrite Forall_forall in Hsent.
    destruct (Hsent _ Hin) as (_ & D & _); simpl in D; congruence. }
  destruct r as [comments|e]; simpl.
  - split; [exists sent; auto|].
    destruct Hout as (new & -> & Hnew); simpl.
    eapply Forall_impl; [|exact Hnew].
    simpl; intros c (f & _ & D & Hf).
    assert (Hp := not_deleted_path f (path c) D Hf).
    split; [exact Hp|].
    intros Hfile'; unfold is_deleted in Hdel; rewrite Hfile' in Hdel.
    apply jsstring_eqb_eq in Hdel; contradiction.
  - split; [exists sent; auto | exact I].
Qed.

Lemma analyzeCode_skips_deleted_witness :
  analyzeCode (sample_env (Normal None) [] (reply_content None))
    [sample_file "a.ts"; sample_file "/dev/null"] sample_pr initial_world
  = analyzeCode (sample_env (Normal None) [] (reply_content None))
      [sample_file "a.ts"] sample_pr initial_world.
Proof.
  exact (proj1 (analyzeCode_skips_deleted
                  (sample_env (Normal None) [] (reply_content None))
                  [sample_file "a.ts"; sample_file "/dev/null"] sample_pr
                  (sample_file "/dev/null") initial_world eq_refl)).
Defined.

Lemma analyzeCode_reviews (env : Env) (files : list File) (pr : PRDetails)
  (w : World) :
  reviews (snd (analyzeCode env files pr w)) = reviews w.
Proof.
  unfold analyzeCode, bind.
  destruct (analyze_files env pr files [] w) as [r w1] eqn:E.
  apply analyze_files_calls in E as (sent & _ & _ & _ & R & _).
  destruct r; simpl; exact R.
Qed.

Lemma post_comments_reviews (env : Env) (pr : PRDetails)
  (comments : list ReviewComment) (w : World) :
  reviews (snd (post_comments env pr comments w))
  = reviews w ++ match comments with
                 | [] => []
                 | _ :: _ => [comments]
                 end.
Proof.
  destruct comments as [|c comments];
    unfold post_comments, bind, log, createReviewComment; simpl.
  - rewrite app_nil_r; reflexivity.
  - destruct (createReview env (c :: comments)); reflexivity.
Qed.

(** Either [main] ends before the analysis, having written to the console
    only, or it gets to the analysis of the filtered diff and ends with
    what lines 246-257 do with its result. *)
Lemma main_outcome (env : Env) (w : World) :
  same_calls w (snd (main env w))
  \/ exists pr diff parsed w0,
       pr_details env = Normal pr
       /\ diff_response env = Normal (Some diff)
       /\ parseDiff env diff = Normal parsed
       /\ same_calls w w0
       /\ main env w
          = (comments <- analyzeCode env (filteredDiff env parsed) pr ;;
             post_comments env pr comments)%M w0.
Proof.
  unfold main.
  destruct (pr_details env) as [pr|e] eqn:Hpr; cbn [bind lift];
    [|left; apply same_calls_refl].
  destruct (event_file env) as [text|e]; cbn [bind lift];
    [|left; apply same_calls_refl].
  destruct (JSON.parse text) as [eventData|e]; cbn [bind lift];
    [|left; apply same_calls_refl].
  destruct (GetV (Some eventData) (lit "action")) as [action|e];
    cbn [bind lift log]; [|left; apply same_calls_refl].
  destruct (action_is action (lit "opened")
            || action_is action (lit "synchronize"));
    cbn [bind log ret]; [|left; console_only].
  unfold getDiff.
  destruct (diff_response env) as [[[|c diff]|]|e] eqn:Hdiff;
    cbn [bind lift log ret throw try_catch];
    try (left; console_only; fail).
  destruct (parseDiff env (c :: diff)) as [parsed|e] eqn:Hparsed;
    cbn [bind lift log ret];
    [|left; console_only].
  right; exists pr, (c :: diff), parsed; eexists.
  split; [reflexivity|]. split; [reflexivity|]. split; [exact Hparsed|].
  split; [|reflexivity].
  console_only.
Qed.

Lemma run_reviews (env : Env) :
  reviews (snd (run env)) = reviews (snd (main env initial_world)).
Proof.
  unfold run; destruct (main env initial_world) as [[?|?] w]; reflexivity.
Qed.

(** C7.  In every run [createReview] is called at most once and never
    with an empty list.  Either the run ends before the analysis and calls
    nothing, or the call is decided by the comments [analyzeCode]
    accumulated on the filtered diff: no call when there are none (or when
    the analysis throws), one call with all of them otherwise. *)
Theorem run_submits_at_most_once (env : Env) :
  (List.length (reviews (snd (run env))) <= 1)%nat
  /\ Forall (fun comments => comments <> []) (reviews (snd (run env)))
  /\ (same_calls initial_world (snd (main env initial_world))
      \/ exists pr diff parsed w0,
           pr_details env = Normal pr
           /\ diff_response env = Normal (Some diff)
           /\ parseDiff env diff = Normal parsed
           /\ same_calls initial_world w0
           /\ match fst (analyzeCode env (filteredDiff env parsed) pr w0) with
              | Normal [] => reviews (snd (run env)) = []
              | Normal (c :: cs) => reviews (snd (run env)) = [c :: cs]
              | Throw _ => reviews (snd (run env)) = []
              end).
Proof.
  rewrite run_reviews.
  destruct (main_outcome env initial_world)
    as [S | (pr & diff & parsed & w0 & Hpr & Hdiff & Hparsed & S & E)].
  - destruct S as (B & P & R); rewrite R; simpl.
    split; [lia|]. split; [constructor|].
    left; unfold same_calls; auto.
  - assert (H : match fst (analyzeCode env (filteredDiff env parsed) pr w0) with
                | Normal [] => reviews (snd (main env initial_world)) = []
                | Normal (c :: cs) =>
                    reviews (snd (main env initial_world)) = [c :: cs]
                | Throw _ => reviews (snd (main env initial_world)) = []
                end).
    { rewrite E; unfold bind.
      pose proof (analyzeCode_reviews env (filteredDiff env parsed) pr w0) as R.
      destruct S as (_ & _ & R0); simpl in R0.
      destruct (analyzeCode env (filteredDiff env parsed) pr w0)
        as [[comments|e] w1]; simpl in *.
      - rewrite post_comments_reviews, R, R0.
        destruct comments; reflexivity.
      - congruence. }
    split; [|split].
    + destruct (fst (analyzeCode env (filteredDiff env parsed) pr w0))
        as [[|c cs]|e]; rewrite H; simpl; lia.
    + destruct (fst (analyzeCode env (filteredDiff env parsed) pr w0))
        as [[|c cs]|e]; rewrite H; repeat constructor; discriminate.
    + right; exists pr, diff, parsed, w0; auto.
Qed.

(** C2, as the code has it.  When the diff request fails or returns
    nothing (on an [opened] or [synchronize] event), the run submits no
    review and calls no model; it logs the exception [getDiff] caught, or
    the size 0 of the diff, and then [No diff found]; and [main] returns
    normally, so that the process ends successfully. *)
Theorem run_without_diff (env : Env) (pr : PRDetails) (text : jsstring)
  (eventData : JSValue) (action : option JSValue)
  (Hpr : pr_details env = Normal pr)
  (Htext : event_file env = Normal text)
  (Hevent : JSON.parse text = Normal eventData)
  (Haction : GetV (Some eventData) (lit "action") = Normal action)
  (Hopened : action_is action (lit "opened")
             || action_is action (lit "synchronize") = true)
  (Hdiff : diff_unavailable (diff_response env) = true) :
  fst (run env) = exit_success
  /\ reviews (snd (run env)) = []
  /\ prompts (snd (run env)) = []
  /\ console (snd (run env))
     = [ log_event_action action;
         log_fetching_full_diff (pull_number pr);
         match diff_response env with
         | Throw e => error_fetching_diff e
         | Normal None => error_fetching_diff TypeError
         | Normal (Some diff) => log_retrieved_diff (List.length diff)
         end;
         log_no_diff_found ].
Proof.
  unfold run, main.
  rewrite Hpr; cbn [bind lift].
  rewrite Htext; cbn [bind lift].
  rewrite Hevent; cbn [bind lift].
  rewrite Haction; cbn [bind lift log].
  rewrite Hopened; cbn [bind log ret].
  unfold getDiff.
  destruct (diff_response env) as [[[|c diff]|]|e];
    try discriminate Hdiff;
    cbn [bind lift log ret throw try_catch]; simpl; auto.
Qed.

Lemma run_without_diff_witness :
  fst (run (sample_env (Throw ExternalError) [] (reply_content None)))
  = exit_success.
Proof.
  refine (proj1 (run_without_diff
                   (sample_env (Throw ExternalError) [] (reply_content None))
                   sample_pr (qlit "{'action':'opened'}")
                   (JObj [(lit "action", JStr (lit "opened"))])
                   (Some (JStr (lit "opened"))) _ _ _ _ _ _));
    vm_compute; reflexivity.
Defined.

(** C2, as stated, fails: when the diff request throws, and when it returns
    the empty text, the process ends successfully, not with a failure. *)
Lemma run_diff_failure_is_success :
  fst (run (sample_env (Throw ExternalError) [] (reply_content None)))
  = exit_success
  /\ fst (run (sample_env (Normal (Some [])) [] (reply_content None)))
     = exit_success
  /\ exit_success <> exit_failure.
Proof.
  split; [vm_compute; reflexivity|].
  split; [vm_compute; reflexivity | discriminate].
Qed.

(** C8.  [createPrompt] is a function of [file.to], the content and the
    changes of the chunk, and the title and description of the pull
    request, and of nothing else: two calls that agree on these return the
    same prompt.  In any world, the prompt [analyzeCode] sends for a chunk
    is that string. *)
Theorem createPrompt_deterministic (file1 file2 : File) (chunk1 chunk2 : Chunk)
  (pr1 pr2 : PRDetails)
  (Hto : file_to file1 = file_to file2)
  (Hcontent : chunk_content chunk1 = chunk_content chunk2)
  (Hchanges : chunk_changes chunk1 = chunk_changes chunk2)
  (Htitle : title pr1 = title pr2)
  (Hdescription : description pr1 = description pr2) :
  createPrompt file1 chunk1 pr1 = createPrompt file2 chunk2 pr2
  /\ forall (env : Env) (rest : list Chunk) (comments : list ReviewComment)
            (w : World),
       exists more,
         prompts (snd (analyze_chunks env file1 pr1 (chunk1 :: rest)
                         comments w))
         = prompts w ++ createPrompt file2 chunk2 pr2 :: more.
Proof.
  assert (Heq : createPrompt file1 chunk1 pr1 = createPrompt file2 chunk2 pr2).
  { unfold createPrompt.
    rewrite Hto, Hcontent, Hchanges, Htitle, Hdescription; reflexivity. }
  split; [exact Heq|].
  intros env rest comments w.
  destruct (analyze_chunks env file1 pr1 (chunk1 :: rest) comments w)
    as [r w'] eqn:E.
  apply analyze_chunks_calls in E
    as (done & rest' & Hsplit & Hne & _ & P & _).
  destruct done as [|c done]; [exfalso; apply Hne; [discriminate|reflexivity]|].
  simpl in Hsplit; inversion Hsplit; subst c.
  simpl; rewrite P; simpl; rewrite Heq; eauto.
Qed.

Lemma createPrompt_deterministic_witness :
  createPrompt (sample_file "a.ts") sample_chunk sample_pr
  = createPrompt {| file_to := Some (lit "a.ts"); file_chunks := [] |}
      sample_chunk
      {| owner := lit "other"; repo := lit "fork"; pull_number := 9;
         title := lit "Fix parser"; description := [] |}.
Proof.
  refine (proj1 (createPrompt_deterministic _ _ _ _ _ _ _ _ _ _ _));
    reflexivity.
Defined.

(** ** Worked examples *)

Example trim_example : trim (lit "  
 a b 	 ") = lit "a b".
Proof. reflexivity. Qed.

Example Number_examples :
  number_to_Z (StringToNumber (lit " 42 ")) = Some 42%Z
  /\ number_to_Z (StringToNumber (lit "0x1F")) = Some 31%Z
  /\ number_to_Z (StringToNumber (lit "1.5e1")) = Some 15%Z
  /\ StringToNumber [] = S754_zero false
  /\ StringToNumber (lit "-0") = S754_zero true
  /\ StringToNumber (lit "1e400") = S754_infinity false
  /\ StringToNumber (lit "4 2") = NaN
  /\ StringToNumber (lit "abc") = NaN
  /\ number_to_Z (StringToNumber (lit "1.5")) = None.
Proof. vm_compute; repeat split. Qed.

Example JSON_parse_examples :
  JSON.parse (qlit " {'a': [1, true, null], 'b': {'c': 'd\nA'}, 'a': false} ")
  = Normal (JObj [(lit "a", JBool false);
                  (lit "b", JObj [(lit "c", JStr (lit "d" ++ [10; 65]))])])
  /\ JSON.parse (qlit "[1,]") = Throw SyntaxError
  /\ JSON.parse (qlit "{'a':1") = Throw SyntaxError
  /\ JSON.parse (qlit "01") = Throw SyntaxError
  /\ JSON.parse (qlit "{'a':1} x") = Throw SyntaxError
  /\ JSON.parse [] = Throw SyntaxError.
Proof. vm_compute; repeat split. Qed.

(** A response that is no JSON at all: [getAIResponse] returns [null], and
    the chunk contributes no comment. *)
Example not_json_at_all (w : World) :
  fst (getAIResponse_from (reply_content (Some (lit "not json at all"))) w)
  = Normal JNull
  /\ ToBoolean (Some JNull) = false.
Proof.
  rewrite getAIResponse_from_value; vm_compute; split; reflexivity.
Qed.

(** A run on two files with one chunk each.  The model finds one issue in
    the first and none in the second: one review is submitted, with the
    one comment, on the first file.  When it finds none in either, no
    review is submitted. *)
Example two_files_one_issue :
  let files := [sample_file "a.ts"; sample_file "b.ts"] in
  let issue := qlit "{'reviews':[{'lineNumber':'10','reviewComment':'bug'}]}" in
  let none := qlit "{'reviews':[]}" in
  let env (first : jsstring) :=
    {| pr_details := Normal sample_pr;
       event_file := Normal (qlit "{'action':'synchronize'}");
       diff_response := Normal (Some (lit "diff --git a/a.ts b/a.ts"));
       exclude_input := lit "*.md";
       parseDiff := fun _ => Normal files;
       minimatch := fun _ _ => false;
       model := fun n _ =>
                  reply_content (Some (match n with O => first | _ => none end));
       createReview := fun _ => Normal tt |} in
  fst (run (env issue)) = exit_success
  /\ reviews (snd (run (env issue)))
     = [[ {| body := Some (JStr (lit "bug")); path := lit "a.ts";
             line := number_of_Z 10 |} ]]
  /\ List.length (prompts (snd (run (env issue)))) = 2%nat
  /\ fst (run (env none)) = exit_success
  /\ reviews (snd (run (env none))) = [].
Proof. vm_compute; repeat split. Qed.

(** A [reviews] that is not a list is returned as it is, and [createComment]
    then throws: the run ends with a failure and submits nothing. *)
Example reviews_not_a_list :
  let env := sample_env (Normal (Some (lit "diff"))) [sample_file "a.ts"]
               (reply_content (Some (qlit "{'reviews':'x'}"))) in
  fst (run env) = exit_failure
  /\ reviews (snd (run env)) = []
  /\ In (error_main TypeError) (console (snd (run env))).
Proof.
  vm_compute; split; [reflexivity|]. split; [reflexivity|].
  repeat (try (left; reflexivity); right).
Qed.

(** ** Further properties of the pipeline *)

(** [getAIResponse] sends its prompt, once, and returns the value decided
    by the reply. *)
Lemma getAIResponse_returned (env : Env) (prompt : jsstring) (w : World) :
  exists w',
    getAIResponse env prompt w
    = (Normal (returned (model env (List.length (prompts w)) prompt)), w')
    /\ built w' = built w /\ prompts w' = prompts w ++ [prompt]
    /\ reviews w' = reviews w.
Proof.
  unfold getAIResponse, bind, ask_model; simpl.
  destruct (model env (List.length (prompts w)) prompt) as [e|content].
  - eexists; split; [reflexivity | simpl; auto].
  - unfold getAIResponse_from, returned, try_catch, bind, lift, log, ret,
      getAIResponse_catch; simpl.
    destruct (JSON.parse (jsonStr (response_text content))) as [parsed|e];
      simpl; [|eexists; split; [reflexivity | simpl; auto]].
    destruct (reviews_or_empty parsed);
      eexists; (split; [reflexivity | simpl; auto]).
Qed.

(** One turn of the inner loop of [analyzeCode]: the chunk is sent; a falsy
    response is skipped, a truthy one goes through [createComment], whose
    comments are appended and whose exception ends the loop. *)
Lemma analyze_chunks_cons (env : Env) (file : File) (pr : PRDetails)
  (chunk : Chunk) (rest : list Chunk) (comments : list ReviewComment)
  (w : World) :
  let v := returned (model env (List.length (prompts w))
                       (createPrompt file chunk pr)) in
  exists w1,
    built w1 = built w ++ [(file, chunk)]
    /\ prompts w1 = prompts w ++ [createPrompt file chunk pr]
    /\ reviews w1 = reviews w
    /\ analyze_chunks env file pr (chunk :: rest) comments w
       = if ToBoolean (Some v) then
           match createComment file chunk v with
           | Normal newComments =>
               analyze_chunks env file pr rest (comments ++ newComments)
                 (snd (log (log_generated (List.length newComments)
                              (file_to file)) w1))
           | Throw e => (Throw e, w1)
           end
         else analyze_chunks env file pr rest comments w1.
Proof.
  intros v; cbn [analyze_chunks].
  unfold bind at 1, note_built at 1.
  destruct (getAIResponse_returned env (createPrompt file chunk pr)
              {| console := console w; built := built w ++ [(file, chunk)];
                 prompts := prompts w; reviews := reviews w |})
    as (w0 & E & B & P & R).
  simpl in E, B, P, R.
  unfold bind at 1; rewrite E; fold v.
  unfold bind at 1, log at 1.
  exists {| console := console w0 ++ [log_ai_response (file_to file) v];
            built := built w0; prompts := prompts w0;
            reviews := reviews w0 |}.
  cbn [built prompts reviews].
  split; [exact B|]. split; [exact P|]. split; [exact R|].
  unfold bind at 1.
  destruct (ToBoolean (Some v)); [|reflexivity].
  unfold bind at 1, lift at 1.
  destruct (createComment file chunk v); reflexivity.
Qed.

(** The value [getAIResponse] returns is falsy only when it is [null]:
    the test of line 79 filters the failures and nothing else. *)
Lemma returned_falsy (reply : ModelReply) :
  ToBoolean (Some (returned reply)) = false <-> returned reply = JNull.
Proof.
  split; [|intros ->; reflexivity].
  destruct reply as [e|content]; unfold returned; [reflexivity|].
  destruct (JSON.parse (jsonStr (response_text content))) as [parsed|e];
    [|reflexivity].
  unfold reviews_or_empty.
  destruct (GetV (Some parsed) (lit "reviews")) as [[v|]|e];
    try reflexivity; try discriminate.
  destruct (ToBoolean (Some v)) eqn:T; intros H.
  - rewrite T in H; discriminate.
  - discriminate.
Qed.

(** X1.  The value [getAIResponse] returns is falsy only when it is
    [null]: a [reviews] that is falsy ([0], [false], the empty string,
    [null]) has been replaced by the empty list, so the test of line 79
    skips the failures and nothing else. *)
Theorem getAIResponse_falsy_only_null (env : Env) (prompt : jsstring)
  (w : World) :
  exists v w',
    getAIResponse env prompt w = (Normal v, w')
    /\ (ToBoolean (Some v) = false <-> v = JNull).
Proof.
  destruct (getAIResponse_returned env prompt w) as (w' & E & _).
  do 2 eexists; split; [exact E | apply returned_falsy].
Qed.

(** X2.  A chunk whose response is the failure signal [null] (the call of
    the model threw, or the text was no JSON) is sent, contributes no
    comment, and the loop goes on with the next chunk and the comments
    gathered so far. *)
Theorem analyze_chunks_failed_response (env : Env) (file : File)
  (pr : PRDetails) (chunk : Chunk) (rest : list Chunk)
  (comments : list ReviewComment) (w : World)
  (Hnull : returned (model env (List.length (prompts w))
                       (createPrompt file chunk pr)) = JNull) :
  exists w1,
    built w1 = built w ++ [(file, chunk)]
    /\ prompts w1 = prompts w ++ [createPrompt file chunk pr]
    /\ reviews w1 = reviews w
    /\ analyze_chunks env file pr (chunk :: rest) comments w
       = analyze_chunks env file pr rest comments w1.
Proof.
  destruct (analyze_chunks_cons env file pr chunk rest comments w)
    as (w1 & B & P & R & E).
  rewrite Hnull in E; simpl in E.
  exists w1; auto.
Qed.

Lemma analyze_chunks_failed_response_witness :
  fst (analyze_chunks (sample_env (Normal None) [] (reply_throws ExternalError))
         (sample_file "a.ts") sample_pr [sample_chunk] [] initial_world)
  = Normal [].
Proof.
  destruct (analyze_chunks_failed_response
              (sample_env (Normal None) [] (reply_throws ExternalError))
              (sample_file "a.ts") sample_pr sample_chunk [] []
              initial_world eq_refl) as (w1 & _ & _ & _ & E).
  rewrite E; reflexivity.
Defined.

(** X3.  A chunk whose response is neither [null] nor a list (the model
    made [reviews] a truthy value of another kind) ends the analysis:
    [createComment] throws a TypeError, which [analyzeCode] does not catch,
    and the chunks after it are not sent. *)
Theorem analyze_chunks_not_a_list (env : Env) (file : File)
  (pr : PRDetails) (chunk : Chunk) (rest : list Chunk)
  (comments : list ReviewComment) (w : World)
  (Hnot_null : returned (model env (List.length (prompts w))
                           (createPrompt file chunk pr)) <> JNull)
  (Hnot_list : forall items,
      returned (model env (List.length (prompts w))
                  (createPrompt file chunk pr)) <> JArr items) :
  exists w1,
    built w1 = built w ++ [(file, chunk)]
    /\ prompts w1 = prompts w ++ [createPrompt file chunk pr]
    /\ reviews w1 = reviews w
    /\ analyze_chunks env file pr (chunk :: rest) comments w
       = (Throw TypeError, w1).
Proof.
  destruct (analyze_chunks_cons env file pr chunk rest comments w)
    as (w1 & B & P & R & E).
  exists w1; repeat split; auto.
  rewrite E; clear E.
  destruct (ToBoolean (Some (returned _))) eqn:T.
  - destruct (returned _) as [| | | |items|]; try reflexivity.
    exfalso; exact (Hnot_list items eq_refl).
  - apply returned_falsy in T; contradiction.
Qed.

Lemma analyze_chunks_not_a_list_witness :
  fst (analyze_chunks
         (sample_env (Normal None) []
            (reply_content (Some (qlit "{'reviews':{'lineNumber':1}}"))))
         (sample_file "a.ts") sample_pr [sample_chunk; sample_chunk] []
         initial_world)
  = Throw TypeError.
Proof.
  destruct (analyze_chunks_not_a_list
              (sample_env (Normal None) []
                 (reply_content (Some (qlit "{'reviews':{'lineNumber':1}}"))))
              (sample_file "a.ts") sample_pr sample_chunk [sample_chunk] []
              initial_world) as (w1 & _ & _ & _ & E).
  - vm_compute; discriminate.
  - intros items; vm_compute; discriminate.
  - rewrite E; reflexivity.
Defined.

(** X4.  For a file with a non-empty path, a response list that holds
    [null] makes [createComment] throw a TypeError, whatever the other
    entries are. *)
Theorem createComment_null_entry (file : File) (chunk : Chunk)
  (items : list JSValue) (to : jsstring)
  (Hto : file_to file = Some to) (Hne : to <> [])
  (Hnull : In JNull items) :
  createComment file chunk (JArr items) = Throw TypeError.
Proof.
  simpl; induction items as [|r items IH]; [destruct Hnull|].
  cbn [flatMap].
  destruct r as [| | | | |];
    try (rewrite (comment_of_entry file to _ Hto Hne) by discriminate;
         rewrite IH by (destruct Hnull as [H|H]; [discriminate H | exact H]);
         reflexivity).
  unfold comment_of; rewrite Hto.
  destruct to; [congruence | reflexivity].
Qed.

Lemma createComment_null_entry_witness :
  createComment (sample_file "a.ts") sample_chunk
    (JArr [sample_entry "1"; JNull]) = Throw TypeError.
Proof.
  refine (createComment_null_entry (sample_file "a.ts") sample_chunk
            [sample_entry "1"; JNull] (lit "a.ts") _ _ _).
  - reflexivity.
  - discriminate.
  - right; left; reflexivity.
Defined.

Lemma createComment_no_path (file : File) (chunk : Chunk)
  (items : list JSValue) :
  file_to file = None \/ file_to file = Some [] ->
  createComment file chunk (JArr items) = Normal [].
Proof.
  intros H; simpl; induction items as [|r items IH]; [reflexivity|].
  cbn [flatMap]; rewrite IH.
  unfold comment_of; destruct H as [-> | ->]; reflexivity.
Qed.

(** X5.  A file without a path ([to] undefined or empty) is analysed
    like any other, every chunk being sent to the model, but
    [createComment] returns no comment for it, also for entries that would
    throw otherwise: a pass over it that completes returns the comments it
    was given. *)
Theorem analyze_chunks_no_path (env : Env) (file : File) (pr : PRDetails)
  (chunks : list Chunk) (comments : list ReviewComment) (w : World)
  (Hto : file_to file = None \/ file_to file = Some []) :
  (forall chunk items, createComment file chunk (JArr items) = Normal [])
  /\ match fst (analyze_chunks env file pr chunks comments w) with
     | Normal out =>
         out = comments
         /\ prompts (snd (analyze_chunks env file pr chunks comments w))
            = prompts w ++ map (fun c => createPrompt file c pr) chunks
     | Throw _ => True
     end.
Proof.
  split; [intros chunk items; apply createComment_no_path; exact Hto|].
  revert comments w; induction chunks as [|chunk rest IH]; intros comments w.
  - simpl; rewrite app_nil_r; auto.
  - destruct (analyze_chunks_cons env file pr chunk rest comments w)
      as (w1 & B & P & R & E).
    rewrite E; clear E.
    destruct (ToBoolean (Some (returned _))).
    + destruct (returned _) as [| | | |items|]; try exact I.
      rewrite (createComment_no_path file chunk items Hto), app_nil_r.
      match goal with
      | |- context [analyze_chunks env file pr rest comments ?w2] =>
          specialize (IH comments w2)
      end.
      destruct (fst (analyze_chunks env file pr rest comments _));
        [|exact I].
      destruct IH as (-> & ->); split; [reflexivity|].
      simpl; rewrite P, <- app_assoc; reflexivity.
    + specialize (IH comments w1).
      destruct (fst (analyze_chunks env file pr rest comments w1));
        [|exact I].
      destruct IH as (-> & ->); split; [reflexivity|].
      simpl; rewrite P, <- app_assoc; reflexivity.
Qed.

Lemma analyze_chunks_no_path_witness :
  createComment {| file_to := None; file_chunks := [sample_chunk] |}
    sample_chunk (JArr [sample_entry "1"; JNull]) = Normal [].
Proof.
  exact (proj1 (analyze_chunks_no_path
                  (sample_env (Normal None) [] (reply_content None))
                  {| file_to := None; file_chunks := [sample_chunk] |}
                  sample_pr [] [] initial_world (or_introl eq_refl))
           sample_chunk [sample_entry "1"; JNull]).
Defined.

(** When the pass over the chunks of a file completes, every chunk was
    sent, once and in order. *)
Lemma analyze_chunks_completed (env : Env) (file : File) (pr : PRDetails)
  (chunks : list Chunk) :
  forall (comments : list ReviewComment) (w : World)
         (out : list ReviewComment) (w' : World),
  analyze_chunks env file pr chunks comments w = (Normal out, w') ->
  built w' = built w ++ map (pair file) chunks
  /\ prompts w' = prompts w ++ map (fun c => createPrompt file c pr) chunks.
Proof.
  induction chunks as [|chunk rest IH]; intros comments w out w' H.
  - inversion H; subst; simpl; rewrite !app_nil_r; auto.
  - destruct (analyze_chunks_cons env file pr chunk rest comments w)
      as (w1 & B & P & R & E).
    rewrite E in H; clear E.
    destruct (ToBoolean (Some (returned _))).
    + destruct (createComment file chunk _); [|discriminate H].
      apply IH in H as (B' & P'); simpl in B', P'.
      rewrite B', P', B, P, <- !app_assoc; auto.
    + apply IH in H as (B' & P').
      rewrite B', P', B, P, <- !app_assoc; auto.
Qed.

Lemma analyze_files_completed (env : Env) (pr : PRDetails)
  (files : list File) :
  forall (comments : list ReviewComment) (w : World)
         (out : list ReviewComment) (w' : World),
  analyze_files env pr files comments w = (Normal out, w') ->
  let sent := flat_map (fun f => map (pair f) (file_chunks f))
                (filter (fun f => negb (is_deleted f)) files) in
  built w' = built w ++ sent
  /\ prompts w'
     = prompts w ++ map (fun fc => createPrompt (fst fc) (snd fc) pr) sent.
Proof.
  induction files as [|file rest IH]; intros comments w out w' H;
    cbn [analyze_files] in H.
  - inversion H; subst; simpl; rewrite !app_nil_r; auto.
  - cbn [filter]; destruct (is_deleted file) eqn:D; cbn [negb].
    + apply IH in H; exact H.
    + apply bind_inv in H as [(? & w1 & E1 & H) | (e & E1 & H)];
        [|discriminate E1].
      inversion E1; subst; clear E1.
      apply bind_inv in H as [(comments' & w2 & E2 & H) | (e & E2 & H)];
        [|discriminate H].
      apply analyze_chunks_completed in E2 as (B2 & P2).
      apply IH in H as (B & P); simpl in B2, P2.
      cbn [flat_map]; rewrite B, P, B2, P2, map_app, map_map, <- !app_assoc.
      auto.
Qed.

(** X6.  When [analyzeCode] completes, the model was called once for each
    chunk of each file that is not deleted, in the order of the files and,
    within a file, of its chunks, each time with the prompt of that chunk. *)
Theorem analyzeCode_calls_in_order (env : Env) (files : list File)
  (pr : PRDetails) (w : World) :
  match fst (analyzeCode env files pr w) with
  | Normal _ =>
      prompts (snd (analyzeCode env files pr w))
      = prompts w
        ++ flat_map (fun f => map (fun c => createPrompt f c pr)
                                (file_chunks f))
             (filter (fun f => negb (is_deleted f)) files)
  | Throw _ => True
  end.
Proof.
  unfold analyzeCode, bind.
  destruct (analyze_files env pr files [] w) as [[out|e] w1] eqn:E;
    [|exact I].
  apply analyze_files_completed in E as (_ & P).
  simpl; rewrite P; clear P; f_equal.
  induction (filter (fun f => negb (is_deleted f)) files) as [|f l IH];
    [reflexivity|].
  simpl; rewrite map_app, map_map, IH; reflexivity.
Qed.

(** X7.  The analysis is sequential: analysing a list of files made of two
    parts is analysing the first part and then the second, starting from
    the comments of the first. *)
Theorem analyze_files_app (env : Env) (pr : PRDetails)
  (files1 files2 : list File) (comments : list ReviewComment) (w : World) :
  analyze_files env pr (files1 ++ files2) comments w
  = (comments' <- analyze_files env pr files1 comments ;;
     analyze_files env pr files2 comments')%M w.
Proof.
  revert comments w; induction files1 as [|file rest IH]; intros comments w;
    [reflexivity|].
  cbn [app analyze_files].
  destruct (is_deleted file); [apply IH|].
  unfold bind, log; cbv beta iota.
  match goal with
  | |- context [analyze_chunks env file pr (file_chunks file) comments ?w1] =>
      destruct (analyze_chunks env file pr (file_chunks file) comments w1)
        as [[comments'|e] w2]
  end; [apply IH | reflexivity].
Qed.

(** [analyzeCode] as a whole: what it sends and what it returns. *)
Lemma analyzeCode_calls (env : Env) (files : list File) (pr : PRDetails)
  (w : World) (r : Completion (list ReviewComment)) (w' : World) :
  analyzeCode env files pr w = (r, w') ->
  exists sent : list (File * Chunk),
    Forall (fun fc => In (fst fc) files /\ is_deleted (fst fc) = false
                      /\ In (snd fc) (file_chunks (fst fc))) sent
    /\ built w' = built w ++ sent
    /\ prompts w'
       = prompts w ++ map (fun fc => createPrompt (fst fc) (snd fc) pr) sent
    /\ reviews w' = reviews w
    /\ match r with
       | Normal out =>
           Forall (fun c => exists f, In f files /\ is_deleted f = false
                                      /\ file_to f = Some (path c)) out
       | Throw _ => True
       end.
Proof.
  unfold analyzeCode, bind; intros H.
  destruct (analyze_files env pr files [] w) as [[out|e] w1] eqn:E.
  - apply analyze_files_calls in E as (sent & Hsent & B & P & R & new & -> & Hnew).
    inversion H; subst; exists sent; simpl; auto.
  - apply analyze_files_calls in E as (sent & Hsent & B & P & R & _).
    inversion H; subst; exists sent; auto.
Qed.

(** A run either ends before the analysis, with console output only, or
    it is decided by the analysis of the filtered diff: the calls of the
    model are those of the analysis, a review is submitted when the
    analysis returns comments, and the run fails when the analysis or the
    submission throws. *)
Lemma run_analysis (env : Env) :
  same_calls initial_world (snd (run env))
  \/ exists pr diff parsed w0 r w1,
       pr_details env = Normal pr
       /\ diff_response env = Normal (Some diff)
       /\ parseDiff env diff = Normal parsed
       /\ same_calls initial_world w0
       /\ analyzeCode env (filteredDiff env parsed) pr w0 = (r, w1)
       /\ built (snd (run env)) = built w1
       /\ prompts (snd (run env)) = prompts w1
       /\ reviews (snd (run env))
          = match r with
            | Normal (c :: cs) => [c :: cs]
            | _ => []
            end
       /\ fst (run env)
          = match r with
            | Throw _ => exit_failure
            | Normal [] => exit_success
            | Normal (c :: cs) =>
                match createReview env (c :: cs) with
                | Normal _ => exit_success
                | Throw _ => exit_failure
                end
            end.
Proof.
  destruct (main_outcome env initial_world)
    as [S | (pr & diff & parsed & w0 & Hpr & Hdiff & Hparsed & S & E)].
  - left; unfold run.
    destruct (main env initial_world) as [[?|?] w]; exact S.
  - right; exists pr, diff, parsed, w0.
    destruct (analyzeCode env (filteredDiff env parsed) pr w0) as [r w1] eqn:A.
    exists r, w1.
    pose proof (analyzeCode_reviews env (filteredDiff env parsed) pr w0) as R.
    rewrite A in R; simpl in R.
    destruct S as (B0 & P0 & R0); simpl in R0; rewrite R0 in R.
    repeat (split; [solve [auto | console_only]|]).
    unfold run; rewrite E; unfold bind; rewrite A.
    destruct r as [[|c cs]|e].
    + simpl; auto.
    + unfold post_comments, bind, log, createReviewComment; simpl.
      destruct (createReview env (c :: cs)); simpl; rewrite R; auto.
    + simpl; auto.
Qed.

(** X8.  A run that ends successfully had every review it submitted
    accepted: when [createReview] throws, the run ends as a failure. *)
Theorem run_success_review_accepted (env : Env)
  (Hsuccess : fst (run env) = exit_success) :
  Forall (fun comments => createReview env comments = Normal tt)
    (reviews (snd (run env))).
Proof.
  destruct (run_analysis env)
    as [(_ & _ & R) | (pr & diff & parsed & w0 & r & w1 & _ & _ & _ & _ & _
                       & _ & _ & R & X)].
  - rewrite R; constructor.
  - rewrite R; rewrite X in Hsuccess.
    destruct r as [[|c cs]|e]; try constructor; [|constructor].
    destruct (createReview env (c :: cs)) as [[]|]; [reflexivity|discriminate].
Qed.

Lemma run_success_review_accepted_witness :
  let env := sample_env (Normal (Some (lit "diff"))) [sample_file "a.ts"]
               (reply_content (Some (qlit
"{'reviews':[{'lineNumber':'1','reviewComment':'x'}]}"))) in
  List.length (reviews (snd (run env))) = 1%nat
  /\ Forall (fun comments => createReview env comments = Normal tt)
       (reviews (snd (run env))).
Proof.
  split; [vm_compute; reflexivity|].
  apply run_success_review_accepted; vm_compute; reflexivity.
Defined.

(** X9.  Whatever is handed to [createPrompt] in a run is a chunk of a
    file of the parsed diff that matches no exclusion pattern and is not
    deleted, and the prompts sent to the model are exactly the prompts of
    these chunks, in order. *)
Theorem run_sends_only_filtered (env : Env) :
  (built (snd (run env)) = [] /\ prompts (snd (run env)) = [])
  \/ exists pr diff parsed,
       pr_details env = Normal pr
       /\ diff_response env = Normal (Some diff)
       /\ parseDiff env diff = Normal parsed
       /\ Forall (fun fc =>
                    In (fst fc) parsed
                    /\ existsb (fun pattern =>
                                  minimatch env (to_or_empty (fst fc)) pattern)
                         (excludePatterns env) = false
                    /\ is_deleted (fst fc) = false
                    /\ In (snd fc) (file_chunks (fst fc)))
            (built (snd (run env)))
       /\ prompts (snd (run env))
          = map (fun fc => createPrompt (fst fc) (snd fc) pr)
              (built (snd (run env))).
Proof.
  destruct (run_analysis env)
    as [(B & P & _) | (pr & diff & parsed & w0 & r & w1 & Hpr & Hdiff & Hparsed
                       & (B0 & P0 & _) & A & B & P & _)].
  - left; auto.
  - right; exists pr, diff, parsed.
    apply analyzeCode_calls in A as (sent & Hsent & B1 & P1 & _).
    simpl in B0, P0; rewrite B0 in B1; rewrite P0 in P1; simpl in B1, P1.
    rewrite B, P, B1, P1; repeat split; auto.
    eapply Forall_impl; [|exact Hsent].
    intros fc (Hin & D & Hc); unfold filteredDiff in Hin.
    apply filter_In in Hin as (Hin & Hex).
    apply negb_true_iff in Hex; auto.
Qed.

(** X10.  Every comment of a submitted review is on the path of a file of
    the filtered diff that is not deleted. *)
Theorem run_comments_anchored (env : Env) :
  Forall (fun comments =>
            Forall (fun c =>
                      exists diff parsed f,
                        diff_response env = Normal (Some diff)
                        /\ parseDiff env diff = Normal parsed
                        /\ In f (filteredDiff env parsed)
                        /\ is_deleted f = false
                        /\ file_to f = Some (path c))
              comments)
    (reviews (snd (run env))).
Proof.
  destruct (run_analysis env)
    as [(_ & _ & R) | (pr & diff & parsed & w0 & r & w1 & Hpr & Hdiff & Hparsed
                       & _ & A & _ & _ & R & _)].
  - rewrite R; constructor.
  - rewrite R.
    apply analyzeCode_calls in A as (sent & _ & _ & _ & _ & Hout).
    destruct r as [[|c cs]|e]; constructor; [|constructor].
    eapply Forall_impl; [|exact Hout].
    intros c' (f & Hin & D & Hf); exists diff, parsed, f; auto.
Qed.

(** X11.  [getDiff] never throws: it returns the diff when the request
    gives one and [null] when the request fails or gives nothing, and all
    it does besides is write one line to the console. *)
Theorem getDiff_never_throws (env : Env) (owner repo : jsstring)
  (pull_number : N) (w : World) :
  exists w',
    getDiff env owner repo pull_number w
    = (Normal match diff_response env with
              | Normal (Some diffData) => Some diffData
              | _ => None
              end, w')
    /\ same_calls w w'
    /\ exists entry, console w' = console w ++ [entry].
Proof.
  unfold getDiff, try_catch, bind, lift, log, ret, throw.
  destruct (diff_response env) as [[d|]|e]; simpl;
    eexists; (split; [reflexivity|]); (split; [console_only|]);
    simpl; eauto.
Qed.



(** X13.  When [getPRDetails] throws, when the event file cannot be read
    or is no JSON, or when the event is [null], the run ends as a failure
    with that exception logged, before anything else is logged or called. *)
Theorem run_startup_failure (env : Env) :
  let failed e :=
    run env = (exit_failure,
               {| console := [error_main e]; built := []; prompts := [];
                  reviews := [] |}) in
  match pr_details env with
  | Throw e => failed e
  | Normal _ =>
      match event_file env with
      | Throw e => failed e
      | Normal text =>
          match JSON.parse text with
          | Throw e => failed e
          | Normal eventData =>
              match GetV (Some eventData) (lit "action") with
              | Throw e => failed e
              | Normal _ => True
              end
          end
      end
  end.
Proof.
  intros failed; unfold failed, run, main.
  destruct (pr_details env) as [pr|e]; cbn [bind lift]; [|reflexivity].
  destruct (event_file env) as [text|e]; cbn [bind lift]; [|reflexivity].
  destruct (JSON.parse text) as [eventData|e]; cbn [bind lift]; [|reflexivity].
  destruct (GetV (Some eventData) (lit "action")) as [action|e];
    cbn [bind lift]; [exact I | reflexivity].
Qed.

(** ** Further properties of the texts *)

Lemma greedy_to_brace_some (s m : jsstring) :
  greedy_to_brace s = Some m ->
  exists mid post : jsstring,
    m = mid ++ [125] /\ s = m ++ post /\ ~ In 125 post.
Proof.
  revert m; induction s as [|c r IH]; simpl; intros m H; [discriminate|].
  destruct (greedy_to_brace r) as [m'|] eqn:G.
  - inversion H; subst.
    destruct (IH m' eq_refl) as (mid & post & -> & Hr & Hpost).
    exists (c :: mid), post; simpl; rewrite Hr at 1; auto.
  - destruct (N.eqb_spec c 125); [|discriminate].
    inversion H; subst.
    exists [], r; repeat split; auto.
    clear IH H; induction r as [|x r IH]; simpl in *; [tauto|].
    destruct (greedy_to_brace r); [discriminate|].
    destruct (N.eqb_spec x 125); [discriminate|].
    intros [Hx|Hx]; [congruence | exact (IH eq_refl Hx)].
Qed.

Lemma greedy_to_brace_none_inv (s : jsstring) :
  greedy_to_brace s = None -> ~ In 125 s.
Proof.
  induction s as [|x r IH]; simpl; [tauto|].
  destruct (greedy_to_brace r); [discriminate|].
  destruct (N.eqb_spec x 125); [discriminate|].
  intros _ [Hx|Hx]; [congruence | exact (IH eq_refl Hx)].
Qed.

Lemma match_braces_some (s m : jsstring) :
  match_braces s = Some m ->
  exists pre mid post : jsstring,
    s = pre ++ m ++ post /\ m = 123 :: mid ++ [125]
    /\ ~ In 123 pre /\ ~ In 125 post.
Proof.
  revert m; induction s as [|c r IH]; simpl; intros m H; [discriminate|].
  destruct (N.eqb_spec c 123) as [->|Hc].
  - destruct (greedy_to_brace r) as [m'|] eqn:G.
    + inversion H; subst.
      apply greedy_to_brace_some in G as (mid & post & -> & Hr & Hpost).
      exists [], mid, post; simpl; rewrite Hr at 1; auto.
    + exfalso.
      apply greedy_to_brace_none_inv in G.
      destruct (IH m H) as (pre & mid & post & Hr & -> & _).
      apply G; rewrite Hr.
      apply in_or_app; right; apply in_or_app; left.
      right; apply in_or_app; right; left; reflexivity.
  - destruct (IH m H) as (pre & mid & post & Hr & Hm & Hpre & Hpost).
    exists (c :: pre), mid, post; simpl; rewrite Hr.
    repeat split; auto.
    intros [E|E]; [congruence | contradiction].
Qed.

(** X14.  The text handed to [JSON.parse] is the response itself when
    the pattern does not match; otherwise it is the part of the response
    from its first opening brace through its last closing brace.
    Extracting again from the extracted text changes nothing. *)
Theorem jsonStr_first_to_last_brace (res : jsstring) :
  (jsonStr res = res /\ match_braces res = None
   \/ exists pre mid post : jsstring,
        res = pre ++ jsonStr res ++ post
        /\ jsonStr res = 123 :: mid ++ [125]
        /\ ~ In 123 pre /\ ~ In 125 post)
  /\ jsonStr (jsonStr res) = jsonStr res.
Proof.
  destruct (match_braces res) as [m|] eqn:M.
  - assert (J : jsonStr res = m) by (unfold jsonStr; rewrite M; reflexivity).
    rewrite J.
    apply match_braces_some in M as (pre & mid & post & Hres & Hm & Hpre & Hpost).
    split; [right; exists pre, mid, post; auto|].
    pose proof (match_braces_first_last [] mid [] (fun H => H) (fun H => H))
      as Q.
    assert (Q' : match_braces m = Some m) by (rewrite Hm; exact Q).
    unfold jsonStr; rewrite Q'; reflexivity.
  - assert (J : jsonStr res = res) by (unfold jsonStr; rewrite M; reflexivity).
    rewrite J; split; [left; auto | exact J].
Qed.

(** [trim] leaves a trimmed text as it is. *)
Lemma trimStart_head (s : jsstring) :
  match trimStart s with
  | [] => True
  | c :: _ => is_js_whitespace c = false
  end.
Proof.
  induction s as [|c r IH]; simpl; [exact I|].
  destruct (is_js_whitespace c) eqn:E; [exact IH | exact E].
Qed.

Lemma trimStart_idempotent (s : jsstring) :
  trimStart (trimStart s) = trimStart s.
Proof.
  pose proof (trimStart_head s) as H.
  destruct (trimStart s) as [|c r]; [reflexivity|].
  simpl; rewrite H; reflexivity.
Qed.

Lemma trimEnd_cons (c : code_unit) (r : jsstring) :
  is_js_whitespace c = false -> trimEnd (c :: r) = c :: trimEnd r.
Proof. intros H; exact (trimEnd_app [] c r H). Qed.

Lemma trim_idempotent (s : jsstring) : trim (trim s) = trim s.
Proof.
  unfold trim.
  pose proof (trimStart_head s) as H.
  destruct (trimStart s) as [|c r]; [reflexivity|].
  rewrite (trimEnd_cons c r H); simpl; rewrite H.
  rewrite (trimEnd_cons c (trimEnd r) H).
  f_equal; unfold trimEnd.
  rewrite rev_involutive, trimStart_idempotent; reflexivity.
Qed.

Lemma split_on_nonempty (sep : code_unit) (s : jsstring) :
  split_on sep s <> [].
Proof.
  induction s as [|c r IH]; simpl; [discriminate|].
  destruct (c =? sep); [discriminate|].
  destruct (split_on sep r); [congruence | discriminate].
Qed.

(** X15.  There is always at least one exclusion pattern (the empty
    pattern, for an empty input), and every pattern is trimmed and holds no
    comma. *)
Theorem excludePatterns_trimmed (env : Env) :
  excludePatterns env <> []
  /\ Forall (fun pattern => trim pattern = pattern /\ ~ In 44 pattern)
       (excludePatterns env).
Proof.
  unfold excludePatterns; split.
  - intros H; apply map_eq_nil in H.
    exact (split_on_nonempty 44 (exclude_input env) H).
  - apply Forall_forall; intros p Hp.
    apply in_map_iff in Hp as (q & <- & Hq).
    split; [apply trim_idempotent|].
    intros Hin; apply trimEnd_incl, trimStart_incl in Hin.
    revert q Hq Hin; generalize (exclude_input env) as s.
    induction s as [|c r IH]; simpl; intros q Hq Hin.
    + destruct Hq as [<-|[]]; destruct Hin.
    + destruct (N.eqb_spec c 44) as [->|Hc].
      * destruct Hq as [<-|Hq]; [destruct Hin | exact (IH q Hq Hin)].
      * pose proof (split_on_nonempty 44 r) as Hne.
        destruct (split_on 44 r) as [|p ps]; [congruence|].
        destruct Hq as [<-|Hq].
        -- destruct Hin as [E|Hin]; [congruence|].
           apply (IH p); [left; reflexivity | exact Hin].
        -- apply (IH q); [right; exact Hq | exact Hin].
Qed.

(** ** Responses without an opening brace *)

Lemma lex_start_lbrace (c : code_unit) (ts : list JSON.token)
  (st : JSON.lex_state) :
  JSON.lex_start c = Some (ts, st) ->
  (In JSON.TLBrace ts -> c = 123)
  /\ match st with
     | JSON.LKeyword _ t => t <> JSON.TLBrace
     | _ => True
     end.
Proof.
  unfold JSON.lex_start.
  repeat match goal with
         | |- context [if ?b then _ else _] => destruct b eqn:?
         end;
    intros H; inversion H; subst; clear H;
    (split; [simpl; try tauto; try (intros [E|[]]; discriminate E)
            | try exact I; try discriminate]).
  intros _; apply N.eqb_eq; assumption.
Qed.

Lemma lex_step_lbrace (st : JSON.lex_state) (c : code_unit)
  (ts : list JSON.token) (st' : JSON.lex_state) :
  match st with
  | JSON.LKeyword _ t => t <> JSON.TLBrace
  | _ => True
  end ->
  JSON.lex_step st c = Some (ts, st') ->
  (In JSON.TLBrace ts -> c = 123)
  /\ match st' with
     | JSON.LKeyword _ t => t <> JSON.TLBrace
     | _ => True
     end.
Proof.
  intros Hok H; destruct st as [|acc|acc|acc v k|rest t|ph a]; simpl in H.
  - apply lex_start_lbrace; exact H.
  - destruct (c =? 34); [|destruct (c =? 92); [|destruct (c <? 32)]];
      inversion H; subst; split; simpl; try exact I; try tauto.
    intros [E|[]]; discriminate E.
  - destruct (c =? 117); [inversion H; subst; split; simpl; tauto|].
    destruct (JSON.escape_char c); inversion H; subst; split; simpl; tauto.
  - destruct (digit_value 16 c); [|discriminate].
    destruct k as [|[|k]]; inversion H; subst; split; simpl; tauto.
  - destruct rest as [|x r]; [discriminate|].
    destruct (c =? x); [|discriminate].
    destruct r; inversion H; subst; split; simpl; try exact I; tauto.
  - destruct (JSON.num_step ph a c) as [[ph' a']|].
    + inversion H; subst; split; simpl; tauto.
    + destruct (JSON.num_accepting ph); [|discriminate].
      destruct (JSON.lex_start c) as [[ts0 st0]|] eqn:L; [|discriminate].
      inversion H; subst.
      apply lex_start_lbrace in L as (L1 & L2).
      split; [|exact L2].
      intros [E|Hin]; [discriminate E | exact (L1 Hin)].
Qed.

Lemma lex_from_lbrace (s : jsstring) :
  forall (st : JSON.lex_state) (ts : list JSON.token),
  match st with
  | JSON.LKeyword _ t => t <> JSON.TLBrace
  | _ => True
  end ->
  JSON.lex_from st s = Some ts -> In JSON.TLBrace ts -> In 123 s.
Proof.
  induction s as [|c r IH]; intros st ts Hok H Hin; simpl in H.
  - destruct st as [| | | | |ph a]; simpl in H; try discriminate.
    + inversion H; subst; destruct Hin.
    + destruct (JSON.num_accepting ph); [|discriminate].
      inversion H; subst; destruct Hin as [E|[]]; discriminate E.
  - destruct (JSON.lex_step st c) as [[ts1 st']|] eqn:L; [|discriminate].
    destruct (JSON.lex_from st' r) as [more|] eqn:F; [|discriminate].
    inversion H; subst.
    apply (lex_step_lbrace st c ts1 st' Hok) in L as (L1 & L2).
    apply in_app_or in Hin as [Hin|Hin].
    + left; exact (L1 Hin).
    + right; exact (IH st' more L2 F Hin).
Qed.

Lemma bottom_is_object_cons (f : JSON.frame) (stack : list JSON.frame) :
  bottom_is_object (f :: stack)
  = match stack with
    | [] => match f with JSON.FObject _ _ => true | JSON.FArray _ => false end
    | _ => bottom_is_object stack
    end.
Proof. destruct stack; reflexivity. Qed.

Lemma parse_step_pending (st st' : JSON.parse_state) (t : JSON.token) :
  JSON.parse_step st t = Some st' -> object_pending st' = true ->
  object_pending st = true \/ t = JSON.TLBrace.
Proof.
  destruct st as [stack|stack|stack|done stack|done k stack|v stack].
  - destruct t; simpl; intros H; inversion H; subst; simpl; auto;
      destruct stack; simpl; auto; discriminate.
  - destruct t; simpl; intros H; inversion H; subst; simpl;
      rewrite ?bottom_is_object_cons; auto;
      destruct stack; simpl; auto; discriminate.
  - destruct t; simpl; intros H; inversion H; subst; simpl;
      destruct stack; simpl; auto.
  - destruct t; simpl; intros H; inversion H; subst; simpl;
      destruct stack; simpl; auto.
  - destruct t; simpl; intros H; inversion H; subst; simpl.
    rewrite bottom_is_object_cons; destruct stack; simpl; auto.
  - destruct stack as [|[done|done k] stack]; [discriminate| |];
      destruct t; simpl; intros H; inversion H; subst; simpl;
      rewrite ?bottom_is_object_cons;
      destruct stack; simpl; auto;
      destruct v; simpl; auto.
Qed.

Lemma parse_from_object (ts : list JSON.token) :
  forall (st : JSON.parse_state) (ps : list (jsstring * JSValue)),
  JSON.parse_from st ts = Some (JObj ps) ->
  object_pending st = true \/ In JSON.TLBrace ts.
Proof.
  induction ts as [|t r IH]; intros st ps H; simpl in H.
  - destruct st as [| | | | |v [|f stack]]; try discriminate.
    inversion H; subst; left; reflexivity.
  - destruct (JSON.parse_step st t) as [st'|] eqn:S; [|discriminate].
    destruct (IH st' ps H) as [P|Hin]; [|right; right; exact Hin].
    destruct (parse_step_pending st st' t S P) as [P' | ->];
      [left; exact P' | right; left; reflexivity].
Qed.

(** A text without an opening brace does not parse to an object. *)
Lemma parse_object_has_brace (text : jsstring)
  (ps : list (jsstring * JSValue)) :
  JSON.parse text = Normal (JObj ps) -> In 123 text.
Proof.
  unfold JSON.parse, JSON.lex.
  destruct (JSON.lex_from JSON.LStart text) as [ts|] eqn:L; [|discriminate].
  destruct (JSON.parse_from (JSON.PValue []) ts) as [v|] eqn:P; [|discriminate].
  intros H; inversion H; subst.
  apply parse_from_object in P as [P|Hin]; [discriminate P|].
  exact (lex_from_lbrace text JSON.LStart ts I L Hin).
Qed.

(** X16.  A response without an opening brace yields no comment:
    [getAIResponse] returns [null] or the empty list. *)
Theorem getAIResponse_without_brace (content : jsstring) (w : World)
  (Hno : ~ In 123 content) :
  fst (getAIResponse_from (reply_content (Some content)) w) = Normal JNull
  \/ fst (getAIResponse_from (reply_content (Some content)) w)
     = Normal (JArr []).
Proof.
  rewrite getAIResponse_from_value.
  unfold response_text.
  destruct (trim content) as [|c r] eqn:T; [right; vm_compute; reflexivity|].
  assert (Hres : ~ In 123 (c :: r)).
  { rewrite <- T; intros H; apply Hno.
    apply trimStart_incl, trimEnd_incl; exact H. }
  unfold jsonStr; rewrite (match_braces_none _ Hres).
  unfold interpreted.
  destruct (JSON.parse (c :: r)) as [parsed|e] eqn:P; [|left; reflexivity].
  destruct parsed as [| | | | |ps]; try (right; reflexivity);
    try (left; reflexivity).
  exfalso; exact (Hres (parse_object_has_brace _ _ P)).
Qed.

Lemma getAIResponse_without_brace_witness :
  fst (getAIResponse_from (reply_content (Some (lit "[1, 2, 3]")))
         initial_world) = Normal JNull
  \/ fst (getAIResponse_from (reply_content (Some (lit "[1, 2, 3]")))
            initial_world) = Normal (JArr []).
Proof.
  apply getAIResponse_without_brace.
  vm_compute; intuition discriminate.
Defined.

(** ** Further properties of the Comment Mapper and of [getPRDetails] *)

(** X17.  For a file with a non-empty path, an entry whose [lineNumber] is
    a blank string is kept, with line [0], which is no positive integer. *)
Theorem createComment_blank_line (file : File) (chunk : Chunk) (r : JSValue)
  (to s : jsstring)
  (Hto : file_to file = Some to) (Hne : to <> [])
  (Hline : property r (lit "lineNumber") = Some (JStr s))
  (Hblank : Forall (fun c => is_js_whitespace c = true) s) :
  createComment file chunk (JArr [r])
  = Normal [ {| body := property r (lit "reviewComment"); path := to;
                line := S754_zero false |} ]
  /\ ~ finite_positive_integer (S754_zero false).
Proof.
  split.
  - assert (Hr : r <> JNull) by (intros ->; discriminate Hline).
    simpl; rewrite (comment_of_entry file to r Hto Hne Hr).
    unfold comment_for; rewrite Hline; simpl.
    unfold StringToNumber; rewrite (trim_whitespace s Hblank); reflexivity.
  - intros (z & Hz & Hpos); simpl in Hz; inversion Hz; subst; lia.
Qed.

Lemma createComment_blank_line_witness :
  createComment (sample_file "a.ts") sample_chunk (JArr [sample_entry " "])
  = Normal [ {| body := Some (JStr (lit "x")); path := lit "a.ts";
                line := S754_zero false |} ].
Proof.
  refine (proj1 (createComment_blank_line (sample_file "a.ts") sample_chunk
                   (sample_entry " ") (lit "a.ts") (lit " ") _ _ _ _)).
  - reflexivity.
  - discriminate.
  - reflexivity.
  - repeat constructor.
Defined.

Lemma flatMap_comment_of_length (file : File) (c : code_unit) (to : jsstring)
  (items : list JSValue) :
  file_to file = Some (c :: to) ->
  forall out, flatMap (comment_of file) items = Normal out ->
  List.length out = List.length items
  /\ Forall (fun x => path x = c :: to) out.
Proof.
  intros Hto; induction items as [|r items IH]; intros out H;
    cbn [flatMap] in H.
  - inversion H; subst; split; [reflexivity | constructor].
  - destruct (comment_of file r) as [l|e] eqn:C; [|discriminate].
    destruct (flatMap (comment_of file) items) as [l'|e]; [|discriminate].
    inversion H; subst; clear H.
    destruct (IH l' eq_refl) as (Hlen & Hall).
    unfold comment_of in C; rewrite Hto in C.
    destruct (GetV (Some r) (lit "reviewComment")); [|discriminate].
    destruct (GetV (Some r) (lit "lineNumber")); [|discriminate].
    inversion C; subst; simpl; split; [f_equal; exact Hlen|].
    constructor; [reflexivity | exact Hall].
Qed.

(** X18.  Whenever [createComment] returns, it returns nothing at all or
    exactly one comment for each entry, and every comment is on the path
    of the file, which is not empty. *)
Theorem createComment_shape (file : File) (chunk : Chunk)
  (items : list JSValue) (out : list ReviewComment)
  (Hout : createComment file chunk (JArr items) = Normal out) :
  (out = [] \/ List.length out = List.length items)
  /\ Forall (fun c => file_to file = Some (path c) /\ path c <> []) out.
Proof.
  destruct (file_to file) as [[|c to]|] eqn:Hto.
  - rewrite (createComment_no_path file chunk items (or_intror Hto)) in Hout.
    inversion Hout; subst; split; [left; reflexivity | constructor].
  - destruct (flatMap_comment_of_length file c to items Hto out Hout)
      as (Hlen & Hall).
    split; [right; exact Hlen|].
    eapply Forall_impl; [|exact Hall].
    simpl; intros x ->; split; [reflexivity | discriminate].
  - rewrite (createComment_no_path file chunk items (or_introl Hto)) in Hout.
    inversion Hout; subst; split; [left; reflexivity | constructor].
Qed.

Lemma createComment_shape_witness :
  List.length [comment_for (lit "a.ts") (sample_entry "3");
               comment_for (lit "a.ts") (sample_entry "x")] = 2%nat.
Proof.
  destruct (createComment_shape (sample_file "a.ts") sample_chunk
              [sample_entry "3"; sample_entry "x"]
              [comment_for (lit "a.ts") (sample_entry "3");
               comment_for (lit "a.ts") (sample_entry "x")] eq_refl)
    as ([H|H] & _); [discriminate H | exact H].
Defined.

(** X19.  [getPRDetails] throws without consulting the API when the event
    file cannot be read (the exception of the read), is no JSON (a
    SyntaxError), or holds no [repository] with an [owner] (a TypeError). *)
Theorem getPRDetails_unusable_event (event : Completion jsstring)
  (pulls_get : option JSValue -> option JSValue -> option JSValue ->
               Completion PullData) :
  match event with
  | Throw e => getPRDetails event pulls_get = Throw e
  | Normal text =>
      match JSON.parse text with
      | Throw e => getPRDetails event pulls_get = Throw e
      | Normal payload =>
          match property payload (lit "repository") with
          | None | Some JNull =>
              getPRDetails event pulls_get = Throw TypeError
          | Some repository =>
              match property repository (lit "owner") with
              | None | Some JNull =>
                  getPRDetails event pulls_get = Throw TypeError
              | Some _ => True
              end
          end
      end
  end.
Proof.
  unfold getPRDetails; destruct event as [text|e]; cbn [and_then];
    [|reflexivity].
  destruct (JSON.parse text) as [payload|e]; cbn [and_then]; [|reflexivity].
  destruct payload as [|b|x|s|l|ps]; try reflexivity.
  unfold property; cbn [GetV and_then].
  destruct (obj_get ps (lit "repository")) as [repository|]; [|reflexivity].
  destruct repository as [|b|x|s|l|qs]; try reflexivity.
  cbn [GetV and_then].
  destruct (obj_get qs (lit "owner")) as [[|b|x|s|l|rs]|];
    try exact I; reflexivity.
Qed.

(** X20.  On an event that holds [repository.owner], [getPRDetails] asks
    the API with [repository.owner.login], [repository.name] and [number],
    passes its exception on, and otherwise returns these three with the
    title and the body of the pull request, a missing title or body being
    the empty string. *)
Theorem getPRDetails_result (text : jsstring) (payload repository own : JSValue)
  (pulls_get : option JSValue -> option JSValue -> option JSValue ->
               Completion PullData)
  (Hpayload : JSON.parse text = Normal payload)
  (Hrepository : property payload (lit "repository") = Some repository)
  (Hown : property repository (lit "owner") = Some own)
  (Hnot_null : own <> JNull) :
  getPRDetails (Normal text) pulls_get
  = match pulls_get (property own (lit "login"))
            (property repository (lit "name"))
            (property payload (lit "number")) with
    | Throw e => Throw e
    | Normal data =>
        Normal {| pr_owner := property own (lit "login");
                  pr_repo := property repository (lit "name");
                  pr_pull_number := property payload (lit "number");
                  pr_title := or_empty (data_title data);
                  pr_description := or_empty (data_body data) |}
    end.
Proof.
  unfold getPRDetails; cbn [and_then]; rewrite Hpayload; cbn [and_then].
  unfold property in *.
  destruct (GetV (Some payload) (lit "repository")) as [rep|] eqn:G1;
    [|discriminate]; subst rep; cbn [and_then].
  destruct (GetV (Some payload) (lit "number")) as [number|] eqn:G2;
    [|destruct payload; discriminate]; cbn [and_then].
  destruct (GetV (Some repository) (lit "owner")) as [o|] eqn:G3;
    [|discriminate]; subst o; cbn [and_then].
  destruct (GetV (Some own) (lit "login")) as [login|] eqn:G4;
    [|destruct own; try discriminate; congruence]; cbn [and_then].
  destruct (GetV (Some repository) (lit "name")) as [name|] eqn:G5;
    [|destruct repository; discriminate]; cbn [and_then].
  destruct (pulls_get login name number); reflexivity.
Qed.

Lemma getPRDetails_result_witness :
  getPRDetails
    (Normal (qlit
"{'number':7,'repository':{'name':'demo','owner':{'login':'octo'}}}"))
    (fun _ _ _ => Normal {| data_title := Some (lit "Fix parser");
                            data_body := None |})
  = Normal {| pr_owner := Some (JStr (lit "octo"));
              pr_repo := Some (JStr (lit "demo"));
              pr_pull_number := Some (JNum (number_of_Z 7));
              pr_title := lit "Fix parser";
              pr_description := [] |}.
Proof.
  rewrite (getPRDetails_result _
             (JObj [(lit "number", JNum (number_of_Z 7));
                    (lit "repository",
                     JObj [(lit "name", JStr (lit "demo"));
                           (lit "owner",
                            JObj [(lit "login", JStr (lit "octo"))])])])
             (JObj [(lit "name", JStr (lit "demo"));
                    (lit "owner", JObj [(lit "login", JStr (lit "octo"))])])
             (JObj [(lit "login", JStr (lit "octo"))])).
  - reflexivity.
  - vm_compute; reflexivity.
  - reflexivity.
  - reflexivity.
  - discriminate.
Defined.
